(** * oracle_code: helper layer around the cx_Oracle driver

    Shallow embedding of [oracle_code.py] and the properties of its batch
    append, keyed delete, schema reconciliation and join-based merge.

    The module talks to a database through a connection object.  Here the
    connection is any instance of the [Driver] class: a state together with
    a function answering each call either with a response (row count and
    description) or with an exception.  Every function of the module is a
    computation in the monad [M], which threads the connection and the
    caller's DataFrame object, records the calls made to the driver and the
    lines printed, and ends by returning, raising, or leaving the process.

    Embedded: [commit_transactions], [append_df], [update_join],
    [format_data], [truncate_data], [append_data], [delete_data] and
    [_print_data_error].  [connect_to_db] only builds the connection, and
    [append_petl] only converts its input to a DataFrame for [append_df]
    and reports the time taken; neither is embedded.  Opening and closing
    a cursor ([with db_conn.cursor() as cur]) is not recorded as a call. *)

Set Warnings "-abstract-large-number".
From Stdlib Require Import ZArith Ascii String DecimalString.
From Equations Require Import Equations.
From stdpp Require Import gmap strings list fin_maps.

Local Open Scope string_scope.
Local Open Scope list_scope.

(** ** Strings *)

(** The line feed and the double quote, which appear inside the module's
    statement templates and messages. *)
Definition nl : string := String (ascii_of_nat 10) EmptyString.
Definition dq : string := String (ascii_of_nat 34) EmptyString.

(** [str.upper()] on the ASCII range: the lower-case letters are shifted
    to upper case, every other character is kept.  Column names are
    modelled as ASCII strings. *)
Definition upper_ascii (c : ascii) : ascii :=
  let n := nat_of_ascii c in
  if (97 <=? n)%nat && (n <=? 122)%nat then ascii_of_nat (n - 32) else c.

Fixpoint upper (s : string) : string :=
  match s with
  | EmptyString => EmptyString
  | String c s' => String (upper_ascii c) (upper s')
  end.

(** [sep.join(l)] *)
Definition join (sep : string) (l : list string) : string := String.concat sep l.

(** [str(n)] for a non-negative integer. *)
Definition str_nat (n : nat) : string := NilEmpty.string_of_uint (Nat.to_uint n).

(** [l[a:b]] for indices [0 <= a <= b], and [l[-n:]]. *)
Definition slice {A} (l : list A) (a b : nat) : list A := take (b - a) (drop a l).
Definition last_n {A} (n : nat) (l : list A) : list A := drop (length l - n) l.

(** [x in l] and [x not in l] on a list of strings. *)
Definition py_in (x : string) (l : list string) : bool := bool_decide (x ∈ l).

(** ** Data *)

(** A value held by a DataFrame cell or bound to a statement. *)
Inductive cell :=
| PyNone
| NaN
| Str (s : string)
| Int (z : Z).

#[global] Instance cell_eq_dec : EqDecision cell.
Proof. solve_decision. Defined.

(** A record (one tuple of values, positionally aligned to the columns). *)
Abbreviation record := (list cell).

(** A pandas DataFrame: column labels and the rows, each row holding one
    cell per label. *)
Record DataFrame := mkDataFrame {
  columns : list string;
  values : list (list cell)
}.

(** The exceptions that occur: the two the module and pandas raise, and
    the errors of the driver.  All three are subclasses of [Exception]. *)
Inductive exn :=
| IndexError (msg : string)
| ValueError (msg : string)
| DatabaseError (msg : string).

(** ** Statements

    One constructor per statement template of the module; the fields are
    the values the template splices in.  [render] gives the text the
    module passes to the driver, character for character. *)
Inductive sql :=
| CreateTableAs (temp_table table : string)
| AddPrimaryKey (temp_table : string) (join_keys : list string)
| SelectFirstRow (table : string)
| DeleteAll (table : string)
| InsertValues (table : string) (l : list nat)
| UpdateJoin (table temp_table : string) (select_cols join_cols set_cols : list string)
| DeleteMatched (temp_table table : string) (join_cols : list string)
| InsertFromTemp (table temp_table : string)
| DropTable (temp_table : string)
| DeleteWhere (table column : string).

Definition old_cols (table : string) (cols : list string) : list string :=
  map (fun col => table +:+ "." +:+ col +:+ " AS OLD_" +:+ col) cols.
Definition new_cols (temp_table : string) (cols : list string) : list string :=
  map (fun col => temp_table +:+ "." +:+ col +:+ " AS NEW_" +:+ col) cols.
Definition cols_select (table temp_table : string) (cols : list string) : string :=
  join ", " (old_cols table cols ++ new_cols temp_table cols).
Definition join_cols (table temp_table : string) (join_keys : list string) : list string :=
  map (fun col => table +:+ "." +:+ col +:+ " = " +:+ temp_table +:+ "." +:+ col) join_keys.
Definition cols_join (table temp_table : string) (join_keys : list string) : string :=
  join " AND " (join_cols table temp_table join_keys).
Definition set_cols (cols : list string) : list string :=
  map (fun col => "joined.OLD_" +:+ col +:+ " = joined.NEW_" +:+ col) cols.
Definition cols_set (cols : list string) : string := join ", " (set_cols cols).

Definition render (s : sql) : string :=
  match s with
  | CreateTableAs temp_table table =>
      nl +:+ "        CREATE TABLE " +:+ temp_table +:+ nl +:+
      "        AS (" +:+ nl +:+
      "            SELECT * " +:+ nl +:+
      "            FROM " +:+ table +:+ nl +:+
      "            WHERE 1=0" +:+ nl +:+
      "            )" +:+ nl +:+
      "    "
  | AddPrimaryKey temp_table join_keys =>
      nl +:+ "        ALTER TABLE " +:+ temp_table +:+ nl +:+
      "        ADD CONSTRAINT " +:+ temp_table +:+ "_PK PRIMARY KEY (" +:+
        join ", " join_keys +:+ ")" +:+ nl +:+
      "        ENABLE" +:+ nl +:+
      "    "
  | SelectFirstRow table => "SELECT * FROM " +:+ table +:+ " WHERE ROWNUM = 1"
  | DeleteAll table => "DELETE FROM " +:+ table
  | InsertValues table l =>
      "INSERT INTO " +:+ table +:+ " VALUES (:" +:+ join ", :" (map str_nat l) +:+ ")"
  | UpdateJoin table temp_table sel jn st =>
      nl +:+ "    UPDATE (" +:+ nl +:+
      "        SELECT " +:+ nl +:+
      "            " +:+ cols_select table temp_table sel +:+ nl +:+
      "        FROM " +:+ table +:+ nl +:+
      "            INNER JOIN " +:+ temp_table +:+ " ON " +:+ nl +:+
      "                " +:+ cols_join table temp_table jn +:+ nl +:+
      "    ) joined" +:+ nl +:+
      "    SET " +:+ nl +:+
      "        " +:+ cols_set st +:+ nl +:+
      "    "
  | DeleteMatched temp_table table jn =>
      nl +:+ "    DELETE    " +:+ nl +:+
      "    FROM " +:+ temp_table +:+ nl +:+
      "    WHERE EXISTS (" +:+ nl +:+
      "        SELECT *" +:+ nl +:+
      "        FROM " +:+ table +:+ nl +:+
      "        WHERE " +:+ nl +:+
      "            " +:+ cols_join table temp_table jn +:+ ") " +:+ nl +:+
      "    "
  | InsertFromTemp table temp_table =>
      nl +:+ "    INSERT INTO " +:+ table +:+ nl +:+
      "    SELECT * " +:+ nl +:+
      "    FROM " +:+ temp_table +:+ " " +:+ nl +:+
      "    "
  | DropTable temp_table => "DROP TABLE " +:+ temp_table
  | DeleteWhere table column =>
      "DELETE FROM " +:+ table +:+ " WHERE " +:+ column +:+ " = :1"
  end.

(** ** The driver *)

(** A call on the connection or on one of its cursors. *)
Inductive call :=
| Execute (statement : sql)
| ExecuteMany (statement : sql) (data : list record)
| Commit
| Rollback.

(** What a cursor shows after a call that did not raise: [cur.rowcount]
    and, of [cur.description], the name of each column (element 0 of each
    entry, the only one the module reads). *)
Record response := mkResponse {
  rowcount : Z;
  description : list string
}.

Class Driver (D : Type) := drive : D -> call -> D * (exn + response).

(** ** Effects *)

(** A printed line: the literal text and the formatted fields of the
    f-string, in order. *)
Inductive piece :=
| Txt (s : string)
| Num (n : Z)
| Keys (l : list string)
| Row (r : record)
| Exc (e : exn).

Inductive event :=
| Call (c : call) (r : exn + response)
| Print (line : list piece).

(** How a call of a function of the module ends: it returns, an exception
    leaves it, or [sys.exit] ends the process. *)
Inductive outcome (A : Type) :=
| Return (a : A)
| Raise (e : exn)
| Exit (status : Z).
Arguments Return {A} a.
Arguments Raise {A} e.
Arguments Exit {A} status.

(** The connection and the DataFrame object the caller passed as [df]. *)
Record state (D : Type) := mkState {
  conn : D;
  frame : DataFrame
}.
Arguments mkState {D} conn frame.
Arguments conn {D} s.
Arguments frame {D} s.

Definition M (D A : Type) : Type := state D -> outcome A * state D * list event.

Definition ret {D A} (a : A) : M D A := fun s => (Return a, s, []).

Definition bind {D A B} (m : M D A) (f : A -> M D B) : M D B := fun s =>
  match m s with
  | (Return a, s1, t1) => let '(o, s2, t2) := f a s1 in (o, s2, t1 ++ t2)
  | (Raise e, s1, t1) => (Raise e, s1, t1)
  | (Exit n, s1, t1) => (Exit n, s1, t1)
  end.

Notation "x <- m ;; k" := (bind m (fun x => k))
  (at level 100, m at next level, right associativity).
Notation "m ;;; k" := (bind m (fun _ => k))
  (at level 100, right associativity).

Definition raise {D A} (e : exn) : M D A := fun s => (Raise e, s, []).
Definition sys_exit {D A} (status : Z) : M D A := fun s => (Exit status, s, []).
Definition print {D} (line : list piece) : M D unit := fun s => (Return tt, s, [Print line]).

(** [try: m except Exception as e: handler e].  [SystemExit] is not an
    [Exception] and passes through. *)
Definition try_except {D A} (m : M D A) (handler : exn -> M D A) : M D A := fun s =>
  match m s with
  | (Raise e, s1, t1) => let '(o, s2, t2) := handler e s1 in (o, s2, t1 ++ t2)
  | r => r
  end.

(** A call to the driver: the response is returned, an exception raised. *)
Definition db_call {D} `{Driver D} (c : call) : M D response := fun s =>
  let '(d, r) := drive (conn s) c in
  (match r with inl e => Raise e | inr v => Return v end,
   mkState d (frame s), [Call c r]).

Definition get_columns {D} : M D (list string) := fun s => (Return (columns (frame s)), s, []).
Definition get_frame {D} : M D DataFrame := fun s => (Return (frame s), s, []).
(** [df.columns = cols] on the caller's object. *)
Definition set_columns {D} (cols : list string) : M D unit := fun s =>
  (Return tt, mkState (conn s) (mkDataFrame cols (values (frame s))), []).

Definition lift {D A} (r : exn + A) : M D A :=
  match r with inl e => raise e | inr a => ret a end.

Definition inspect {A} (a : A) : {b | a = b} := exist _ a eq_refl.

(** ** The module *)

(** The module's global; [append_data] reads it at every turn of its loop. *)
Definition BATCH_SIZE : nat := 20000.

(** *** The parts of [format_data] that do not touch the connection *)

(** The loop over [desc]: every column of the table has to be a label of
    the DataFrame; the names are collected in the table's order. *)
Fixpoint oracle_order_loop (table : string) (df_columns desc oracle_order : list string)
  : exn + list string :=
  match desc with
  | [] => inr oracle_order
  | oracle_col :: rest =>
      if negb (py_in oracle_col df_columns) then
        inl (IndexError ("Column " +:+ dq +:+ oracle_col +:+ dq +:+
                         " from database table " +:+ dq +:+ table +:+ dq +:+
                         " not in dataframe"))
      else oracle_order_loop table df_columns rest (oracle_order ++ [oracle_col])
  end.

(** Position of the first label equal to [c]. *)
Definition index_of (c : string) (labels : list string) : option nat :=
  fst <$> list_find (fun x => x = c) labels.

(** The cell of [row] under label [c]; a label the frame does not have
    gives NaN. *)
Definition cell_at (labels : list string) (row : list cell) (c : string) : cell :=
  match index_of c labels with
  | Some i => default NaN (row !! i)
  | None => NaN
  end.

(** [df.reindex(columns=cols)]: a new frame with exactly the labels [cols],
    in that order.  pandas refuses to reindex a frame whose labels are not
    unique, unless the labels asked for are the frame's own. *)
Definition reindex (df : DataFrame) (cols : list string) : exn + DataFrame :=
  if decide (columns df = cols) then inr df
  else if decide (NoDup (columns df)) then
    inr (mkDataFrame cols (map (fun row => map (cell_at (columns df) row) cols) (values df)))
  else inl (ValueError "cannot reindex on an axis with duplicate labels").

(** [df.replace({'': None, np.nan: None}).astype('object')], cell by cell. *)
Definition replace_null (c : cell) : cell :=
  match c with
  | Str EmptyString => PyNone
  | NaN => PyNone
  | _ => c
  end.

Definition replace_nulls (df : DataFrame) : DataFrame :=
  mkDataFrame (columns df) (map (map replace_null) (values df)).

(** [list(df.to_records(index=False))]: one record per row.  pandas hands
    the columns to numpy's [rec.fromarrays], which takes the shape of the
    records from the first column and so raises an IndexError when there
    is none, and which refuses a record type with a repeated field name
    with a ValueError. *)
Definition to_records (df : DataFrame) : exn + list record :=
  if decide (columns df = []) then inl (IndexError "list index out of range")
  else if decide (NoDup (columns df)) then inr (values df)
  else inl (ValueError "name already used as a name or title").

(** *** The statements of [update_join]

    [statement_update] is built from the labels [df.columns] has once the
    data is staged: the select list aliases every label in both tables,
    the join condition equates the join keys, and the SET clause takes the
    labels that are not in [join_keys]. *)
Definition temp_table (table : string) : string := "TEMP_" +:+ table.
Definition statement_create (table : string) : sql :=
  CreateTableAs (temp_table table) table.
Definition statement_add_pk (table : string) (join_keys : list string) : sql :=
  AddPrimaryKey (temp_table table) join_keys.
Definition statement_update (table : string) (join_keys df_columns : list string) : sql :=
  UpdateJoin table (temp_table table) df_columns join_keys
             (filter (fun col => col ∉ join_keys) df_columns).
Definition statement_delete_temp (table : string) (join_keys : list string) : sql :=
  DeleteMatched (temp_table table) table join_keys.
Definition statement_append_from_temp (table : string) : sql :=
  InsertFromTemp table (temp_table table).

Section OracleCode.
Context {D : Type} `{Driver D}.

Definition commit_transactions (commit : bool) : M D unit :=
  _ <- (if commit then db_call Commit else db_call Rollback) ;;
  print [Txt "All database transactions were ";
         Txt (if commit then "COMMITTED" else "ROLLED BACK")].

Definition format_data (table : string) (return_col_names : bool)
  : M D (list record * option (list string)) :=
  let statement := SelectFirstRow table in
  r <- db_call (Execute statement) ;;
  let desc := description r in
  old_columns <- get_columns ;;
  set_columns (map upper old_columns) ;;;
  df_columns <- get_columns ;;
  oracle_order <- lift (oracle_order_loop table df_columns desc []) ;;
  df <- get_frame ;;
  df <- lift (reindex df oracle_order) ;;
  let df := replace_nulls df in
  data <- lift (to_records df) ;;
  if return_col_names then ret (data, Some oracle_order) else ret (data, None).

Definition truncate_data (table : string) : M D unit :=
  let execution_statement := DeleteAll table in
  r <- db_call (Execute execution_statement) ;;
  print [Txt "Successfully deleted "; Num (rowcount r);
         Txt (" rows from table " +:+ dq +:+ table +:+ dq)].

Fixpoint print_rows (rows : list record) : M D unit :=
  match rows with
  | [] => ret tt
  | row :: rest => print [Txt "    "; Row row] ;;; print_rows rest
  end.

Definition _print_data_error {A} (execution_statement : sql) (data : list record) (e : exn)
  : M D A :=
  print [Txt "Execution Statement Failed:"] ;;;
  print [Txt (render execution_statement)] ;;;
  print [Txt "data[0:5]:"] ;;;
  print_rows (slice data 0 5) ;;;
  print [Txt "data[-5:]:"] ;;;
  print_rows (last_n 5 data) ;;;
  print [Exc e] ;;;
  sys_exit 1.

(** One turn of the [while True] loop of [append_data] after the test for
    the empty slice: the progress line, then the insert of the batch under
    its [try]. *)
Definition append_batch (execution_statement : sql) (table : string)
    (start_pos : nat) (data : list record) : M D unit :=
  print [Txt "    appending rows ["; Num (Z.of_nat start_pos); Txt ":";
         Num (Z.of_nat (length data) - 1); Txt "]"] ;;;
  try_except
    (r <- db_call (ExecuteMany execution_statement data) ;;
     print [Txt "Successfully appended "; Num (rowcount r);
            Txt (" rows to table '" +:+ table +:+ "'")])
    (fun e => _print_data_error execution_statement data e).

(** The [while True] loop of [append_data], for a batch size [B]. *)
Equations? append_loop (B : nat) (execution_statement : sql) (table : string)
    (all_data : list record) (start_pos : nat)
  : M D unit by wf (length all_data - start_pos) lt :=
  append_loop B execution_statement table all_data start_pos
    with inspect (slice all_data start_pos (start_pos + B)) := {
    | exist _ [] _ => ret tt
    | exist _ data Hdata =>
        append_batch execution_statement table start_pos data ;;;
        append_loop B execution_statement table all_data (start_pos + B) }.
Proof.
  unfold slice in Hdata.
  destruct (decide (start_pos < length all_data)) as [Hlt|Hge].
  - destruct B; [by rewrite Nat.add_0_r, Nat.sub_diag in Hdata | lia].
  - rewrite drop_ge, take_nil in Hdata by lia. discriminate.
Qed.

(** [append_data] with the batch size as a parameter; [append_data] itself
    is the instance at [BATCH_SIZE]. *)
Definition append_data_batched (B : nat) (all_data : list record) (table : string)
    (truncate : bool) : M D unit :=
  print [Txt ("Appending to " +:+ dq +:+ table +:+ dq)] ;;;
  first <- lift (match all_data !! 0%nat with
                 | Some r => inr r
                 | None => inl (IndexError "list index out of range")
                 end) ;;
  let l := map (fun x => x + 1) (seq 0 (length first)) in
  (if truncate then truncate_data table else ret tt) ;;;
  let execution_statement := InsertValues table l in
  append_loop B execution_statement table all_data 0.

Definition append_data : list record -> string -> bool -> M D unit :=
  append_data_batched BATCH_SIZE.

Definition append_df (table : string) (truncate : bool) : M D unit :=
  all_data <- format_data table false ;;
  append_data (fst all_data) table truncate.

Definition delete_data (np_array : list cell) (table column : string) : M D unit :=
  if negb (Nat.eqb (length np_array) 0) then
    let execution_statement := DeleteWhere table column in
    let data := map (fun key => [key]) np_array in
    try_except
      (r <- db_call (ExecuteMany execution_statement data) ;;
       print [Txt "Successfully deleted "; Num (rowcount r);
              Txt (" rows from table '" +:+ table +:+ "'")])
      (fun e =>
         print [Txt "Execution Statement Failed:"] ;;;
         print [Txt (render execution_statement)] ;;;
         raise e)
  else print [Txt "Not deleting - Array has length 0"].

Definition update_join (table : string) (join_keys : list string) (commit : bool)
  : M D unit :=
  print [Txt ("Creating new table " +:+ temp_table table)] ;;;
  _ <- db_call (Execute (statement_create table)) ;;
  print [Txt "Adding primary key(s) "; Keys join_keys;
         Txt (" to " +:+ temp_table table)] ;;;
  _ <- db_call (Execute (statement_add_pk table join_keys)) ;;
  append_df (temp_table table) false ;;;
  df_columns <- get_columns ;;
  print [Txt ("Updating table " +:+ table)] ;;;
  r <- db_call (Execute (statement_update table join_keys df_columns)) ;;
  print [Txt "Successfully updated "; Num (rowcount r);
         Txt (" rows in table " +:+ dq +:+ table +:+ dq)] ;;;
  r <- db_call (Execute (statement_delete_temp table join_keys)) ;;
  print [Txt "Successfully deleted "; Num (rowcount r);
         Txt (" rows from temp table " +:+ dq +:+ temp_table table +:+ dq)] ;;;
  r <- db_call (Execute (statement_append_from_temp table)) ;;
  print [Txt "Successfully appended "; Num (rowcount r);
         Txt (" rows from temp table " +:+ dq +:+ temp_table table +:+ dq +:+
              " into table " +:+ dq +:+ table +:+ dq)] ;;;
  commit_transactions commit ;;;
  print [Txt ("Dropping temp table " +:+ temp_table table)] ;;;
  _ <- db_call (Execute (DropTable (temp_table table))) ;;
  ret tt.

End OracleCode.

(** ** A relational model of the database behind the driver

    The module's docstrings describe what each statement of the merge is
    for, and rely on one rule of the database: DDL statements (CREATE,
    ALTER, DROP) commit the running transaction, all other statements take
    effect inside it until [commit] or [rollback].  The model below gives
    the statements of [sql] that meaning on tables of untyped cells: a
    table is its column names, the columns of its primary key and its
    rows; values have no types, and the only constraint is the primary
    key.  A call the module never makes is answered with an error.  A
    statement that fails changes no table (none of the properties below
    depends on the state a failed call leaves). *)
Module Oracle.

Record table := mkTable {
  t_columns : list string;    (* column names, in the table's order *)
  t_key : list string;        (* columns of the primary key; [] when there is none *)
  t_rows : list record
}.

(** The tables as of the last commit, and as the running transaction sees
    them. *)
Record db := mkDb {
  committed : gmap string table;
  working : gmap string table
}.

(** Unquoted identifiers are folded to upper case. *)
Definition ident (name : string) : string := upper name.

(** The empty string is the null value. *)
Definition is_null (c : cell) : bool :=
  match c with
  | PyNone => true
  | Str EmptyString => true
  | _ => false
  end.

(** [a = b] in a condition: never true of a null. *)
Definition sql_eq (a b : cell) : bool := negb (is_null a) && bool_decide (a = b).

(** The value of [row] in the column called [name], and in the column an
    identifier of a statement refers to. *)
Definition field (cols : list string) (row : record) (name : string) : cell :=
  match index_of name cols with
  | Some i => default PyNone (row !! i)
  | None => PyNone
  end.

Definition col_value (cols : list string) (row : record) (c : string) : cell :=
  field cols row (ident c).

Definition has_column (cols : list string) (c : string) : bool := py_in (ident c) cols.

(** The join condition [table.k = temp_table.k AND ...] on a pair of rows. *)
Definition matches (cols_t cols_s jn : list string) (t s : record) : bool :=
  forallb (fun k => sql_eq (col_value cols_t t k) (col_value cols_s s k)) jn.

(** A primary key holds when no row has a null in it and no two rows agree
    on it. *)
Definition key_of (cols key : list string) (row : record) : list cell :=
  map (col_value cols row) key.

Definition key_ok (cols key : list string) (rows : list record) : bool :=
  match key with
  | [] => true
  | _ => forallb (fun r => forallb (fun v => negb (is_null v)) (key_of cols key r)) rows
         && bool_decide (NoDup (map (key_of cols key) rows))
  end.

(** A row of the target after [SET joined.OLD_c = joined.NEW_c, ...] with
    the scratch row [s] it joins: the columns named in the SET clause take
    the scratch row's values. *)
Definition overwrite (cols_t cols_s st : list string) (t s : record) : record :=
  map (fun c => if py_in c (map ident st) then field cols_s s c
                else field cols_t t c) cols_t.

Definition update_row (cols_t cols_s jn st : list string) (scratch : list record)
    (t : record) : record :=
  match find (matches cols_t cols_s jn t) scratch with
  | Some s => overwrite cols_t cols_s st t s
  | None => t
  end.

Definition matched (cols_t cols_s jn : list string) (target : list record)
    (s : record) : bool :=
  existsb (fun t => matches cols_t cols_s jn t s) target.

Definition refuse (d : db) (msg : string) : db * (exn + response) :=
  (d, inl (DatabaseError msg)).
Definition answer (d : db) (n : nat) (desc : list string) : db * (exn + response) :=
  (d, inr (mkResponse (Z.of_nat n) desc)).

Definition implicit_commit (d : db) : db := mkDb (working d) (working d).
Definition store (d : db) (name : string) (Tg : table) : db :=
  mkDb (committed d) (<[ident name := Tg]> (working d)).
Definition with_rows (Tg : table) (rows : list record) : table :=
  mkTable (t_columns Tg) (t_key Tg) rows.

Definition exec_create_table_as (d : db) (temp_table table : string) :=
  let d := implicit_commit d in
  match working d !! ident table, working d !! ident temp_table with
  | None, _ => refuse d "table or view does not exist"
  | Some _, Some _ => refuse d "name is already used by an existing object"
  | Some Tg, None =>
      answer (implicit_commit (store d temp_table (mkTable (t_columns Tg) [] []))) 0 []
  end.

Definition exec_add_primary_key (d : db) (temp_table : string) (join_keys : list string) :=
  let d := implicit_commit d in
  match working d !! ident temp_table with
  | None => refuse d "table or view does not exist"
  | Some Tg =>
      if bool_decide (join_keys = []) then refuse d "invalid identifier"
      else if negb (forallb (has_column (t_columns Tg)) join_keys) then
        refuse d "invalid identifier"
      else if negb (bool_decide (NoDup (map ident join_keys))) then
        refuse d "duplicate column name"
      else if negb (bool_decide (t_key Tg = [])) then
        refuse d "table can have only one primary key"
      else if negb (key_ok (t_columns Tg) (map ident join_keys) (t_rows Tg)) then
        refuse d "cannot validate - primary key violated"
      else
        answer (implicit_commit
                (store d temp_table
                   (mkTable (t_columns Tg) (map ident join_keys) (t_rows Tg)))) 0 []
  end.

Definition exec_select_first_row (d : db) (table : string) :=
  match working d !! ident table with
  | None => refuse d "table or view does not exist"
  | Some Tg => answer d 0 (t_columns Tg)
  end.

Definition exec_delete_all (d : db) (table : string) :=
  match working d !! ident table with
  | None => refuse d "table or view does not exist"
  | Some Tg => answer (store d table (with_rows Tg [])) (length (t_rows Tg)) []
  end.

Definition exec_insert_values (d : db) (table : string) (l : list nat) (data : list record) :=
  match working d !! ident table with
  | None => refuse d "table or view does not exist"
  | Some Tg =>
      if bool_decide (l = []) then refuse d "missing expression"
      else if negb (Nat.eqb (length l) (length (t_columns Tg))) then
        refuse d "wrong number of values"
      else if negb (forallb (fun r => Nat.eqb (length r) (length l)) data) then
        refuse d "wrong number of bind values"
      else if negb (key_ok (t_columns Tg) (t_key Tg) (t_rows Tg ++ data)) then
        refuse d "primary key violated"
      else answer (store d table (with_rows Tg (t_rows Tg ++ data))) (length data) []
  end.

Definition exec_update_join (d : db) (table temp_table : string) (sel jn st : list string) :=
  match working d !! ident table, working d !! ident temp_table with
  | Some Tg, Some Sc =>
      let ct := t_columns Tg in
      let cs := t_columns Sc in
      if bool_decide (sel = []) || bool_decide (jn = []) || bool_decide (st = []) then
        refuse d "missing expression"
      else if negb (forallb (fun c => has_column ct c && has_column cs c) (sel ++ jn)) then
        refuse d "invalid identifier"
      else if negb (forallb (fun c => py_in (ident c) (map ident sel)) st) then
        refuse d "invalid identifier"
      else if bool_decide (t_key Sc = []) ||
              negb (forallb (fun k => py_in k (map ident jn)) (t_key Sc)) then
        refuse d "cannot modify a column which maps to a non key-preserved table"
      else
        let rows := map (update_row ct cs jn st (t_rows Sc)) (t_rows Tg) in
        if negb (key_ok ct (t_key Tg) rows) then refuse d "primary key violated"
        else answer (store d table (with_rows Tg rows))
                  (length (filter (fun t => is_Some (find (matches ct cs jn t) (t_rows Sc)))
                                  (t_rows Tg))) []
  | _, _ => refuse d "table or view does not exist"
  end.

Definition exec_delete_matched (d : db) (temp_table table : string) (jn : list string) :=
  match working d !! ident table, working d !! ident temp_table with
  | Some Tg, Some Sc =>
      let ct := t_columns Tg in
      let cs := t_columns Sc in
      if bool_decide (jn = []) then refuse d "missing expression"
      else if negb (forallb (fun c => has_column ct c && has_column cs c) jn) then
        refuse d "invalid identifier"
      else
        let rows := filter (fun s => matched ct cs jn (t_rows Tg) s = false) (t_rows Sc) in
        answer (store d temp_table (with_rows Sc rows)) (length (t_rows Sc) - length rows) []
  | _, _ => refuse d "table or view does not exist"
  end.

Definition exec_insert_from_temp (d : db) (table temp_table : string) :=
  match working d !! ident table, working d !! ident temp_table with
  | Some Tg, Some Sc =>
      if negb (Nat.eqb (length (t_columns Tg)) (length (t_columns Sc))) then
        refuse d "wrong number of values"
      else
        let rows := t_rows Tg ++ t_rows Sc in
        if negb (key_ok (t_columns Tg) (t_key Tg) rows) then refuse d "primary key violated"
        else answer (store d table (with_rows Tg rows)) (length (t_rows Sc)) []
  | _, _ => refuse d "table or view does not exist"
  end.

Definition exec_drop_table (d : db) (temp_table : string) :=
  let d := implicit_commit d in
  match working d !! ident temp_table with
  | None => refuse d "table or view does not exist"
  | Some _ =>
      answer (implicit_commit (mkDb (committed d) (delete (ident temp_table) (working d)))) 0 []
  end.

Definition exec_delete_where (d : db) (table column : string) (data : list record) :=
  match working d !! ident table with
  | None => refuse d "table or view does not exist"
  | Some Tg =>
      if negb (has_column (t_columns Tg) column) then refuse d "invalid identifier"
      else if negb (forallb (fun r => Nat.eqb (length r) 1) data) then
        refuse d "wrong number of bind values"
      else
        let rows :=
          filter (fun r => existsb (sql_eq (col_value (t_columns Tg) r column))
                                   (concat data) = false) (t_rows Tg) in
        answer (store d table (with_rows Tg rows)) (length (t_rows Tg) - length rows) []
  end.

Definition run (d : db) (c : call) : db * (exn + response) :=
  match c with
  | Commit => answer (mkDb (working d) (working d)) 0 []
  | Rollback => answer (mkDb (committed d) (committed d)) 0 []
  | Execute (CreateTableAs temp_table table) => exec_create_table_as d temp_table table
  | Execute (AddPrimaryKey temp_table join_keys) => exec_add_primary_key d temp_table join_keys
  | Execute (SelectFirstRow table) => exec_select_first_row d table
  | Execute (DeleteAll table) => exec_delete_all d table
  | ExecuteMany (InsertValues table l) data => exec_insert_values d table l data
  | Execute (UpdateJoin table temp_table sel jn st) => exec_update_join d table temp_table sel jn st
  | Execute (DeleteMatched temp_table table jn) => exec_delete_matched d temp_table table jn
  | Execute (InsertFromTemp table temp_table) => exec_insert_from_temp d table temp_table
  | Execute (DropTable temp_table) => exec_drop_table d temp_table
  | ExecuteMany (DeleteWhere table column) data => exec_delete_where d table column data
  | _ => refuse d "statement not supported"
  end.

#[global] Instance driver : Driver db := run.

End Oracle.

(** ** A scripted driver

    The connection is a list of answers, handed out one per call; once the
    list is used up every call succeeds with an empty response.  It stands
    for a driver that fails where a scenario needs it to. *)
Module Scripted.

Definition ok : exn + response := inr (mkResponse 0 []).

#[global] Instance driver : Driver (list (exn + response)) := fun d c =>
  match d with
  | [] => ([], ok)
  | r :: rest => (rest, r)
  end.

End Scripted.

(** ** Observations on a run *)

(** The calls made to the driver, in order. *)
Definition calls (t : list event) : list call :=
  omap (fun ev => match ev with Call c _ => Some c | Print _ => None end) t.

(** The batches handed to the insert executions, in order. *)
Definition insert_batches (t : list event) : list (list record) :=
  omap (fun ev => match ev with
                  | Call (ExecuteMany (InsertValues _ _) data) _ => Some data
                  | _ => None
                  end) t.

(** An event other than a call that raised. *)
Definition succeeded (ev : event) : Prop :=
  match ev with
  | Call _ (inl _) => False
  | _ => True
  end.

#[global] Instance succeeded_dec ev : Decision (succeeded ev).
Proof. destruct ev as [c [e|r]|line]; simpl; apply _. Defined.

(** An insert execution (or keyed delete) that raised. *)
Definition failed_insert (ev : event) : Prop :=
  match ev with
  | Call (ExecuteMany _ _) (inl _) => True
  | _ => False
  end.

(** [ceil(n / b)] *)
Definition ceil_div (n b : nat) : nat := (n + b - 1) / b.

(** What [_print_data_error] prints. *)
Definition diagnostics (execution_statement : sql) (data : list record) (e : exn)
  : list event :=
  [Print [Txt "Execution Statement Failed:"];
   Print [Txt (render execution_statement)];
   Print [Txt "data[0:5]:"]] ++
  map (fun row => Print [Txt "    "; Row row]) (take 5 data) ++
  [Print [Txt "data[-5:]:"]] ++
  map (fun row => Print [Txt "    "; Row row]) (last_n 5 data) ++
  [Print [Exc e]].

(** The progress line and the success line of one batch. *)
Definition progress_line (start_pos : nat) (data : list record) : event :=
  Print [Txt "    appending rows ["; Num (Z.of_nat start_pos); Txt ":";
         Num (Z.of_nat (length data) - 1); Txt "]"].
Definition appended_line (table : string) (r : response) : event :=
  Print [Txt "Successfully appended "; Num (rowcount r);
         Txt (" rows to table '" +:+ table +:+ "'")].

(** ** The run of the merge *)

(** The events of the staging step of the merge: lines, the schema query,
    and the insert executions. *)
Definition staging (ev : event) : Prop :=
  match ev with
  | Print _ => True
  | Call (Execute (SelectFirstRow _)) _ => True
  | Call (Execute (DeleteAll _)) _ => True
  | Call (ExecuteMany (InsertValues _ _) _) _ => True
  | _ => False
  end.

(** The call that honours the commit flag. *)
Definition decision (commit : bool) : call := if commit then Commit else Rollback.

(** A call that neither ends the transaction nor drops a table. *)
Definition harmless (c : call) : Prop :=
  match c with
  | Commit | Rollback | Execute (DropTable _) => False
  | _ => True
  end.

Definition creating_line (table : string) : event :=
  Print [Txt ("Creating new table " +:+ temp_table table)].
Definition adding_key_line (table : string) (join_keys : list string) : event :=
  Print [Txt "Adding primary key(s) "; Keys join_keys; Txt (" to " +:+ temp_table table)].
Definition updating_line (table : string) : event :=
  Print [Txt ("Updating table " +:+ table)].
Definition updated_line (table : string) (r : response) : event :=
  Print [Txt "Successfully updated "; Num (rowcount r);
         Txt (" rows in table " +:+ dq +:+ table +:+ dq)].
Definition purged_line (table : string) (r : response) : event :=
  Print [Txt "Successfully deleted "; Num (rowcount r);
         Txt (" rows from temp table " +:+ dq +:+ temp_table table +:+ dq)].
Definition remainder_line (table : string) (r : response) : event :=
  Print [Txt "Successfully appended "; Num (rowcount r);
         Txt (" rows from temp table " +:+ dq +:+ temp_table table +:+ dq +:+
              " into table " +:+ dq +:+ table +:+ dq)].
Definition decided_line (commit : bool) : event :=
  Print [Txt "All database transactions were ";
         Txt (if commit then "COMMITTED" else "ROLLED BACK")].
Definition dropping_line (table : string) : event :=
  Print [Txt ("Dropping temp table " +:+ temp_table table)].

(** The run of the second [with] block of [update_join], spelled out call
    by call: each call either raises, which ends the run, or lets the next
    one happen. *)
Definition merge_tail {D} `{Driver D} (table : string) (join_keys : list string)
    (commit : bool) (s : state D) : outcome unit * state D * list event :=
  let upd := Execute (statement_update table join_keys (columns (frame s))) in
  let del := Execute (statement_delete_temp table join_keys) in
  let ins := Execute (statement_append_from_temp table) in
  let dec := decision commit in
  let drp := Execute (DropTable (temp_table table)) in
  match drive (conn s) upd with
  | (d1, inl e) => (Raise e, mkState d1 (frame s), [updating_line table; Call upd (inl e)])
  | (d1, inr r1) =>
  let t1 := [updating_line table; Call upd (inr r1); updated_line table r1] in
  match drive d1 del with
  | (d2, inl e) => (Raise e, mkState d2 (frame s), t1 ++ [Call del (inl e)])
  | (d2, inr r2) =>
  let t2 := t1 ++ [Call del (inr r2); purged_line table r2] in
  match drive d2 ins with
  | (d3, inl e) => (Raise e, mkState d3 (frame s), t2 ++ [Call ins (inl e)])
  | (d3, inr r3) =>
  let t3 := t2 ++ [Call ins (inr r3); remainder_line table r3] in
  match drive d3 dec with
  | (d4, inl e) => (Raise e, mkState d4 (frame s), t3 ++ [Call dec (inl e)])
  | (d4, inr r4) =>
  let t4 := t3 ++ [Call dec (inr r4); decided_line commit; dropping_line table] in
  match drive d4 drp with
  | (d5, inl e) => (Raise e, mkState d5 (frame s), t4 ++ [Call drp (inl e)])
  | (d5, inr r5) => (Return tt, mkState d5 (frame s), t4 ++ [Call drp (inr r5)])
  end end end end end.

(** The same for the first [with] block. *)
Definition merge_head {D} `{Driver D} (table : string) (join_keys : list string)
    (s : state D) : outcome unit * state D * list event :=
  let crt := Execute (CreateTableAs (temp_table table) table) in
  let key := Execute (AddPrimaryKey (temp_table table) join_keys) in
  match drive (conn s) crt with
  | (d1, inl e) => (Raise e, mkState d1 (frame s), [creating_line table; Call crt (inl e)])
  | (d1, inr r1) =>
  let t1 := [creating_line table; Call crt (inr r1); adding_key_line table join_keys] in
  match drive d1 key with
  | (d2, inl e) => (Raise e, mkState d2 (frame s), t1 ++ [Call key (inl e)])
  | (d2, inr r2) => (Return tt, mkState d2 (frame s), t1 ++ [Call key (inr r2)])
  end end.

(** One run after another. *)
Definition and_then {D A B} (r : outcome A * state D * list event)
    (k : A -> state D -> outcome B * state D * list event)
  : outcome B * state D * list event :=
  match r with
  | (Return a, s1, t1) => let '(o, s2, t2) := k a s1 in (o, s2, t1 ++ t2)
  | (Raise e, s1, t1) => (Raise e, s1, t1)
  | (Exit n, s1, t1) => (Exit n, s1, t1)
  end.

(** ** The merge property *)

(** The records a merge stages for a table with columns [cols]: what
    [format_data] returns for the frame [df]. *)
Definition staged_records (df : DataFrame) (cols : list string) : option (list record) :=
  match reindex (mkDataFrame (map upper (columns df)) (values df)) cols with
  | inr df1 =>
      match to_records (replace_nulls df1) with
      | inr data => Some data
      | inl _ => None
      end
  | inl _ => None
  end.

(** What merging the staged records into the target [T0] on the keys
    [join_keys] is to leave in the target, [T1]: the rows of [T0] in place,
    where a row whose join-key values occur in a staged record has taken
    that record's value in every column outside the join keys and kept
    its join-key values, and a row with no such record is unchanged;
    after them the staged records whose join-key values occur in no row
    of [T0]; so as many rows as before plus the number of those records. *)
Definition merge_as_claimed (T0 : Oracle.table) (join_keys : list string)
    (staged : list record) (T1 : Oracle.table) : Prop :=
  let cols := Oracle.t_columns T0 in
  let joins t s := Oracle.matches cols cols join_keys t s = true in
  let unmatched :=
    filter (fun s => Oracle.matched cols cols join_keys (Oracle.t_rows T0) s = false) staged in
  Oracle.t_columns T1 = cols /\
  (exists updated,
     Oracle.t_rows T1 = updated ++ unmatched /\
     length updated = length (Oracle.t_rows T0) /\
     forall i t, Oracle.t_rows T0 !! i = Some t ->
       (forall s, s ∈ staged -> joins t s ->
          exists t', updated !! i = Some t' /\
            (forall c, c ∈ cols -> c ∉ map Oracle.ident join_keys ->
                       Oracle.field cols t' c = Oracle.field cols s c) /\
            (forall k, k ∈ join_keys ->
                       Oracle.col_value cols t' k = Oracle.col_value cols t k)) /\
       ((forall s, s ∈ staged -> ~ joins t s) -> updated !! i = Some t)) /\
  length (Oracle.t_rows T1) = length (Oracle.t_rows T0) + length unmatched.

(** The rows the statements of the merge leave in the target before the
    decision: the rows updated in place, then the scratch rows that joined
    nothing. *)
Definition merged_rows (T0 : Oracle.table) (join_keys df_columns : list string)
    (staged : list record) : list record :=
  let cols := Oracle.t_columns T0 in
  let st := filter (fun col => col ∉ join_keys) df_columns in
  map (Oracle.update_row cols cols join_keys st staged) (Oracle.t_rows T0) ++
  filter (fun s => Oracle.matched cols cols join_keys (Oracle.t_rows T0) s = false) staged.

(** ** The batching property

    The insert executions of a run are [ceil(N/B)] in number, none carries
    more than [B] rows, and put end to end they are the input. *)
Definition batches_as_claimed (B : nat) (all_data : list record) (t : list event) : Prop :=
  length (insert_batches t) = ceil_div (length all_data) B /\
  Forall (fun b => length b <= B) (insert_batches t) /\
  concat (insert_batches t) = all_data.

(** ** The reconciliation property *)


(** Every row holds one cell per label. *)
Definition well_formed (df : DataFrame) : Prop :=
  Forall (fun row => length row = length (columns df)) (values df).

(** The rows of [df] laid out on the columns [S]: for each column of [S],
    in order, the cell under the label that upper-cases to it, with empty
    strings and NaN replaced by None.  Labels of [df] that are not in [S]
    contribute nothing. *)
Definition reconciled (df : DataFrame) (S : list string) : list record :=
  map (fun row => map (fun c => replace_null (cell_at (map upper (columns df)) row c)) S)
      (values df).


(** ** The UPDATE of a merge *)


(** ** The frame effect *)


(** ** Further observations on a run *)

(** A run that stops at the first call that raises: it returned only if
    no call raised, and a call that raised is the last call made. *)
Definition fail_fast {D A} (r : outcome A * state D * list event) : Prop :=
  (forall a, r.1.1 = Return a -> Forall succeeded r.2) /\
  (forall pre c e post, r.2 = pre ++ Call c (inl e) :: post ->
     Forall succeeded pre /\ calls post = []).

(** The connection after the calls of [t] have been made on [d], one
    after another. *)
Definition replay {D} `{Driver D} (d : D) (t : list event) : D :=
  foldl (fun d c => (drive d c).1) d (calls t).

(** A computation all of whose runs stop at the first call that raises and
    end with the connection its calls leave. *)
Definition orderly {D} `{Driver D} {A} (m : M D A) : Prop :=
  forall s, conn (m s).1.2 = replay (conn s) (m s).2 /\ fail_fast (m s).

(** A cell the module hands to the driver as it is: neither NaN nor the
    empty string. *)
Definition normalised (c : cell) : Prop := c <> NaN /\ c <> Str EmptyString.


(** A table of that name exists, in the committed state and in the running
    transaction. *)
Definition table_exists (d : Oracle.db) (name : string) : Prop :=
  is_Some (Oracle.committed d !! Oracle.ident name) /\
  is_Some (Oracle.working d !! Oracle.ident name).

(** A run that left the process exactly when an insert execution raised,
    and then with status 1. *)
Definition exits_on_failed_insert {D A} (r : outcome A * state D * list event) : Prop :=
  (forall n, r.1.1 = Exit n -> n = 1%Z) /\
  ((exists n, r.1.1 = Exit n) <-> Exists failed_insert r.2).


(** A computation all of whose runs do. *)
Definition exiting {D A} (m : M D A) : Prop := forall s, exits_on_failed_insert (m s).

(** ** Example inputs *)
Module Examples.

Definition people : DataFrame :=
  mkDataFrame ["id"; "name"] [[Int 1; Str "ann"]; [Int 2; Str "bob"]].

Definition five_rows : list record :=
  [[Int 1]; [Int 2]; [Int 3]; [Int 4]; [Int 5]].

(** One row more than a batch holds. *)
Definition many_rows : list record := replicate (S BATCH_SIZE) [Int 0].


Definition unique_violation : exn := DatabaseError "ORA-00001: unique constraint violated".

(** Connections of the scripted driver: one on which every call succeeds,
    one whose first call raises, one whose second call raises. *)
Definition quiet : state (list (exn + response)) := mkState [] people.
Definition failing_first : state (list (exn + response)) :=
  mkState [inl unique_violation] people.
Definition failing_second : state (list (exn + response)) :=
  mkState [Scripted.ok; inl unique_violation] people.

(** A database with one table of three rows, and new data for it: two
    rows whose ID is in the table and one whose ID is new. *)
Definition items : Oracle.table :=
  Oracle.mkTable ["ID"; "NAME"; "VALUE"] []
    [[Int 1; Str "a"; Int 10]; [Int 2; Str "b"; Int 20]; [Int 3; Str "c"; Int 30]].
Definition shop : Oracle.db :=
  Oracle.mkDb {["ITEMS" := items]} {["ITEMS" := items]}.
Definition changes : DataFrame :=
  mkDataFrame ["value"; "id"; "name"]
    [[Int 11; Int 1; Str "a"]; [Int 21; Int 2; Str "b"]; [Int 41; Int 4; Str "d"]].



End Examples.

(** ** Further example inputs *)
Module Samples.

(** A frame for the table of the examples with an empty string and a NaN. *)
Definition gaps : DataFrame :=
  mkDataFrame ["id"; "name"; "value"] [[Int 5; Str EmptyString; NaN]].

(** A frame with the labels of that table and no rows. *)
Definition no_rows : DataFrame := mkDataFrame ["id"; "name"; "value"] [].

(** One new row for that table. *)
Definition new_item : list record := [[Int 7; Str "g"; Int 70]].

(** What the schema query answers for that table. *)
Definition described : response := mkResponse 0 ["ID"; "NAME"; "VALUE"].

(** The database a merge leaves when the frame lacks a column. *)
Definition stale : state Oracle.db :=
  (update_join "ITEMS" ["ID"] true (mkState Examples.shop Examples.people)).1.2.

End Samples.

(** * Properties *)

(** ** Runs of the building blocks *)

Section Runs.
Context {D : Type} `{Driver D}.

Lemma print_rows_run rows (s : state D) :
  print_rows rows s = (Return tt, s, map (fun row => Print [Txt "    "; Row row]) rows).
Proof.
  induction rows as [|row rows IH]; [done|].
  cbn [print_rows]. unfold bind, print. rewrite IH. done.
Qed.

Lemma print_data_error_run {A} stmt data e (s : state D) :
  @_print_data_error D A stmt data e s = (Exit 1, s, diagnostics stmt data e).
Proof.
  unfold _print_data_error, diagnostics, bind, print, sys_exit, slice.
  rewrite !print_rows_run. rewrite Nat.sub_0_r, drop_0. done.
Qed.

Lemma append_loop_step B stmt table all_data start_pos :
  append_loop B stmt table all_data start_pos =
  match slice all_data start_pos (start_pos + B) with
  | [] => ret tt
  | data => append_batch stmt table start_pos data ;;;
            append_loop B stmt table all_data (start_pos + B)
  end.
Proof.
  rewrite append_loop_equation_1. unfold inspect.
  cut (forall b (e : slice all_data start_pos (start_pos + B) = b),
    append_loop_unfold_clause_1 B stmt table all_data start_pos (exist _ b e) =
    match b with
    | [] => ret tt
    | data => append_batch stmt table start_pos data ;;;
              append_loop B stmt table all_data (start_pos + B)
    end).
  { intros Hcut. rewrite Hcut. clear Hcut.
    by destruct (slice all_data start_pos (start_pos + B)). }
  intros [|r b] e; reflexivity.
Qed.

(** One batch: the insert either succeeds, or the diagnostics are printed
    and the process exits. *)
Lemma append_batch_run stmt table start_pos data (s : state D) :
  append_batch stmt table start_pos data s =
  match drive (conn s) (ExecuteMany stmt data) with
  | (d, inr r) =>
      (Return tt, mkState d (frame s),
       [progress_line start_pos data; Call (ExecuteMany stmt data) (inr r);
        appended_line table r])
  | (d, inl e) =>
      (Exit 1, mkState d (frame s),
       [progress_line start_pos data; Call (ExecuteMany stmt data) (inl e)]
       ++ diagnostics stmt data e)
  end.
Proof.
  unfold append_batch, bind, print, try_except, db_call.
  destruct (drive (conn s) (ExecuteMany stmt data)) as [d [e|r]]; simpl.
  - by rewrite print_data_error_run.
  - done.
Qed.

Lemma slice_nil_iff {A} (l : list A) a B :
  slice l a (a + B) = [] <-> B = 0 \/ length l <= a.
Proof.
  unfold slice. replace (a + B - a) with B by lia. split.
  - intros Hnil. destruct B as [|B]; [by left|right].
    destruct (decide (length l <= a)) as [|Hlt]; [done|].
    assert (Hlen : length (take (S B) (drop a l)) = 0) by (by rewrite Hnil).
    rewrite length_take, length_drop in Hlen. lia.
  - intros [->|Hge]; [done|]. rewrite drop_ge by done. apply take_nil.
Qed.

Lemma ceil_div_0 B : 0 < B -> ceil_div 0 B = 0.
Proof. intros HB. unfold ceil_div. apply Nat.div_small. lia. Qed.

Lemma ceil_div_step n B : 0 < B -> 0 < n -> ceil_div n B = S (ceil_div (n - B) B).
Proof.
  intros HB Hn. unfold ceil_div.
  destruct (decide (B <= n)) as [Hle|Hgt].
  - replace (n + B - 1) with (1 * B + (n - B + B - 1)) by lia.
    rewrite Nat.div_add_l by lia. done.
  - replace (n - B) with 0 by lia. simpl.
    rewrite (Nat.div_small (B - 1) B) by lia.
    symmetry. apply (Nat.div_unique _ _ 1 (n - 1)); lia.
Qed.

Lemma append_loop_batches B tb l table all_data :
  0 < B ->
  forall n start_pos (s : state D) o s' t,
    length all_data - start_pos <= n ->
    append_loop B (InsertValues tb l) table all_data start_pos s = (o, s', t) ->
    Forall succeeded t ->
    o = Return tt /\
    frame s' = frame s /\
    concat (insert_batches t) = drop start_pos all_data /\
    length (insert_batches t) = ceil_div (length all_data - start_pos) B /\
    Forall (fun b => length b <= B) (insert_batches t).
Proof.
  intros HB n. induction n as [|n IH]; intros start_pos s o s' t Hn Hrun Hok;
    rewrite append_loop_step in Hrun.
  - assert (Hnil : slice all_data start_pos (start_pos + B) = [])
      by (apply slice_nil_iff; lia).
    rewrite Hnil in Hrun. injection Hrun as <- <- <-.
    rewrite drop_ge by lia. replace (length all_data - start_pos) with 0 by lia.
    rewrite ceil_div_0 by done. simpl. auto.
  - destruct (slice all_data start_pos (start_pos + B)) as [|r data] eqn:Hslice.
    + apply slice_nil_iff in Hslice as [->|Hge]; [lia|].
      injection Hrun as <- <- <-.
      rewrite drop_ge by lia. replace (length all_data - start_pos) with 0 by lia.
      rewrite ceil_div_0 by done. simpl. auto.
    + assert (Hlt : start_pos < length all_data).
      { destruct (decide (start_pos < length all_data)); [done|].
        assert (slice all_data start_pos (start_pos + B) = [])
          by (apply slice_nil_iff; lia). congruence. }
      unfold bind in Hrun. rewrite append_batch_run in Hrun.
      destruct (drive (conn s) (ExecuteMany (InsertValues tb l) (r :: data)))
        as [d [e|v]].
      * injection Hrun as <- <- <-.
        apply Forall_cons in Hok as [_ Hok]. apply Forall_cons in Hok as [[] _].
      * destruct (append_loop B (InsertValues tb l) table all_data (start_pos + B)
                    (mkState d (frame s))) as [[o2 s2] t2] eqn:Hrest.
        injection Hrun as <- <- <-.
        apply (Forall_app _ [_; _; _]) in Hok as [_ Hok].
        apply IH in Hrest as (-> & Hframe & Hcat & Hlen & Hall); [|lia|done].
        split; [done|]. split; [done|].
        cbn [insert_batches omap app]. fold (insert_batches t2).
        cbn. fold (insert_batches t2).
        rewrite Hcat, Hlen.
        assert (Hdata : r :: data = take B (drop start_pos all_data)).
        { rewrite <- Hslice. unfold slice. f_equal. lia. }
        split; [|split].
        -- change (r :: data ++ ?x) with ((r :: data) ++ x). rewrite Hdata.
           rewrite <- drop_drop. apply take_drop.
        -- rewrite (ceil_div_step (length all_data - start_pos)) by lia.
           f_equal. f_equal. lia.
        -- constructor; [|done]. rewrite Hdata, length_take. lia.
Qed.
End Runs.

(** A list cut in two ways: when the first part of one cut holds nothing
    like [x], the element [x] lies in the second part. *)
Lemma split_after {A} (P : A -> Prop) (t1 t2 pre post : list A) (x : A) :
  Forall (fun y => ~ P y) t1 -> P x ->
  t1 ++ t2 = pre ++ x :: post ->
  exists pre', pre = t1 ++ pre' /\ t2 = pre' ++ x :: post.
Proof.
  intros Hno Hx. revert pre. induction Hno as [|y t1 Hy Hno IH]; intros pre Heq.
  - by exists pre.
  - destruct pre as [|p pre]; simpl in Heq.
    + injection Heq as -> _. done.
    + injection Heq as -> Heq. apply IH in Heq as (pre' & -> & ->). by exists pre'.
Qed.

(** ** Batch append *)

Section BatchAppend.
Context {D : Type} `{Driver D}.

Lemma truncate_data_run table (s : state D) :
  truncate_data table s =
  match drive (conn s) (Execute (DeleteAll table)) with
  | (d, inr r) =>
      (Return tt, mkState d (frame s),
       [Call (Execute (DeleteAll table)) (inr r);
        Print [Txt "Successfully deleted "; Num (rowcount r);
               Txt (" rows from table " +:+ dq +:+ table +:+ dq)]])
  | (d, inl e) => (Raise e, mkState d (frame s), [Call (Execute (DeleteAll table)) (inl e)])
  end.
Proof.
  unfold truncate_data, bind, db_call, print.
  by destruct (drive (conn s) (Execute (DeleteAll table))) as [d [e|r]].
Qed.

(** C3, amended.  For a non-empty input of N rows and a batch size B > 0,
    when no call of the run raised, [append_data] returns, having issued
    exactly ceil(N/B) insert executions, each carrying at most B rows,
    whose batches in issue order concatenate to the input.  [append_data]
    itself is the case [B = BATCH_SIZE]. *)
Theorem append_data_batches B all_data table truncate (s : state D) :
  all_data <> [] -> 0 < B ->
  Forall succeeded (append_data_batched B all_data table truncate s).2 ->
  (append_data_batched B all_data table truncate s).1.1 = Return tt /\
  batches_as_claimed B all_data (append_data_batched B all_data table truncate s).2.
Proof.
  intros Hne HB. destruct all_data as [|first rest]; [done|].
  unfold append_data_batched, batches_as_claimed, bind, print, lift, ret.
  cbn [lookup list_lookup].
  set (stmt := InsertValues table _).
  destruct truncate.
  - rewrite truncate_data_run.
    destruct (drive (conn s) (Execute (DeleteAll table))) as [d [e|r]].
    + simpl. intros Hok. apply Forall_cons in Hok as [_ Hok].
      by apply Forall_cons in Hok as [[] _].
    + destruct (append_loop B stmt table (first :: rest) 0 (mkState d (frame s)))
        as [[o s'] t] eqn:Hloop. simpl. intros Hok.
      apply (Forall_app _ [_; _; _]) in Hok as [_ Hok].
      eapply append_loop_batches in Hloop as (-> & _ & Hcat & Hlen & Hall); [|done|done|done].
      rewrite Nat.sub_0_r in Hlen. by rewrite drop_0 in Hcat.
  - destruct (append_loop B stmt table (first :: rest) 0 s) as [[o s'] t] eqn:Hloop.
    simpl. intros Hok. apply Forall_cons in Hok as [_ Hok].
    eapply append_loop_batches in Hloop as (-> & _ & Hcat & Hlen & Hall); [|done|done|done].
    rewrite Nat.sub_0_r in Hlen. by rewrite drop_0 in Hcat.
Qed.

End BatchAppend.

Lemma append_data_batches_witness :
  (append_data_batched 2 Examples.five_rows "T" true Examples.quiet).1.1 = Return tt /\
  batches_as_claimed 2 Examples.five_rows
    (append_data_batched 2 Examples.five_rows "T" true Examples.quiet).2.
Proof.
  apply (append_data_batches 2 Examples.five_rows "T" true Examples.quiet).
  - discriminate.
  - lia.
  - vm_compute. repeat constructor.
Defined.

(** C3 as stated fails: 20001 rows make two batches, but when the driver
    raises on the first insert execution no second one is issued. *)
Lemma append_data_batches_counterexample :
  Examples.many_rows <> [] /\
  ~ batches_as_claimed BATCH_SIZE Examples.many_rows
      (append_data Examples.many_rows "T" false Examples.failing_first).2.
Proof.
  split; [discriminate|].
  intros [Hlen _]. vm_compute in Hlen. discriminate.
Qed.

Lemma diagnostics_prints stmt data e :
  Forall (fun ev => ~ failed_insert ev) (diagnostics stmt data e).
Proof.
  unfold diagnostics. repeat (apply Forall_app; split); 
    try (apply Forall_forall; intros ev [row [-> _]]%list_elem_of_fmap; simpl; tauto);
    repeat constructor; simpl; tauto.
Qed.

Section BatchFailure.
Context {D : Type} `{Driver D}.

Lemma append_loop_failure B stmt table all_data :
  forall n start_pos (s : state D) o s' t pre statement data e post,
    length all_data - start_pos <= n ->
    append_loop B stmt table all_data start_pos s = (o, s', t) ->
    t = pre ++ Call (ExecuteMany statement data) (inl e) :: post ->
    post = diagnostics statement data e /\ o = Exit 1.
Proof.
  induction n as [|n IH]; intros start_pos s o s' t pre statement data e post Hn Hrun Ht;
    rewrite append_loop_step in Hrun;
    destruct (slice all_data start_pos (start_pos + B)) as [|r batch] eqn:Hslice.
  - injection Hrun as <- <- <-. by destruct pre.
  - apply (f_equal length) in Hslice. unfold slice in Hslice.
    rewrite length_take, length_drop in Hslice. simpl in Hslice. lia.
  - injection Hrun as <- <- <-. by destruct pre.
  - assert (HB : 0 < B /\ start_pos < length all_data).
    { apply (f_equal length) in Hslice. unfold slice in Hslice.
      rewrite length_take, length_drop in Hslice. simpl in Hslice. lia. }
    unfold bind in Hrun. rewrite append_batch_run in Hrun.
    destruct (drive (conn s) (ExecuteMany stmt (r :: batch))) as [d [e0|v]].
    + injection Hrun as <- <- <-.
      apply (split_after failed_insert [_]) in Ht as (pre' & -> & Ht);
        [|repeat constructor; simpl; tauto|done].
      destruct pre' as [|p pre']; simpl in Ht.
      * by injection Ht as -> -> -> ->.
      * injection Ht as _ Ht.
        pose proof (diagnostics_prints stmt (r :: batch) e0) as Hd.
        rewrite Ht in Hd. apply Forall_app in Hd as [_ Hd].
        apply Forall_cons in Hd as [Hd _]. by destruct Hd.
    + destruct (append_loop B stmt table all_data (start_pos + B) (mkState d (frame s)))
        as [[o2 s2] t2] eqn:Hrest.
      injection Hrun as <- <- <-.
      apply (split_after failed_insert [_; _; _]) in Ht as (pre' & -> & Ht);
        [|repeat constructor; simpl; tauto|done].
      eapply IH in Hrest; [done|lia|done].
Qed.

(** C6.  Whenever an insert execution of [append_data] raises a driver
    exception, what follows it in the run is exactly the diagnostics: the
    failing statement's text, the first five and the last five rows of that
    batch, and the exception; the process then exits with status 1.  No
    call, so no further batch, comes after the failed one, and nothing is
    raised to the caller. *)
Theorem append_data_failure_exits all_data table truncate (s : state D)
    pre statement data e post :
  (append_data all_data table truncate s).2 =
    pre ++ Call (ExecuteMany statement data) (inl e) :: post ->
  post = diagnostics statement data e /\
  (append_data all_data table truncate s).1.1 = Exit 1.
Proof.
  unfold append_data, append_data_batched, bind, print, lift.
  destruct (all_data !! 0) as [first|]; unfold raise, ret.
  2:{ intros Ht. by destruct pre as [|? [|? ?]]. }
  set (stmt := InsertValues table _).
  destruct truncate.
  - rewrite truncate_data_run.
    destruct (drive (conn s) (Execute (DeleteAll table))) as [d [e0|r]].
    + simpl. intros Ht. by destruct pre as [|? [|? [|? ?]]].
    + destruct (append_loop BATCH_SIZE stmt table all_data 0 (mkState d (frame s)))
        as [[o s'] t] eqn:Hloop. simpl. intros Ht.
      apply (split_after failed_insert [_; _; _]) in Ht as (pre' & -> & Ht);
        [|repeat constructor; simpl; tauto|done].
      eapply append_loop_failure in Hloop; [done|done|done].
  - destruct (append_loop BATCH_SIZE stmt table all_data 0 s) as [[o s'] t] eqn:Hloop.
    simpl. intros Ht.
    apply (split_after failed_insert [_]) in Ht as (pre' & -> & Ht);
      [|repeat constructor; simpl; tauto|done].
    eapply append_loop_failure in Hloop; [done|done|done].
Qed.

(** C9.  On the empty row set [append_data] raises the IndexError of
    [all_data[0]] right after its first progress line: no truncate and no
    insert has been issued, and the empty input is not a no-op. *)
Theorem append_data_empty table truncate (s : state D) :
  append_data [] table truncate s =
  (Raise (IndexError "list index out of range"), s,
   [Print [Txt ("Appending to " +:+ dq +:+ table +:+ dq)]]).
Proof. reflexivity. Qed.

End BatchFailure.

Lemma append_data_failure_exits_witness :
  drop 5 (append_data Examples.five_rows "T" true Examples.failing_second).2 =
    diagnostics (InsertValues "T" [1]) Examples.five_rows Examples.unique_violation /\
  (append_data Examples.five_rows "T" true Examples.failing_second).1.1 = Exit 1.
Proof.
  apply (append_data_failure_exits Examples.five_rows "T" true Examples.failing_second
           (take 4 (append_data Examples.five_rows "T" true Examples.failing_second).2)).
  vm_compute. reflexivity.
Defined.

(** ** Keyed delete *)

Section KeyedDelete.
Context {D : Type} `{Driver D}.

(** C7.  For a non-empty key set, when the DELETE execution raises a
    driver exception [e], [delete_data] prints the failing statement and
    ends by raising that same [e] to its caller: it neither exits the
    process nor swallows the error. *)
Theorem delete_data_reraises np_array table column (s : state D) d e :
  np_array <> [] ->
  drive (conn s) (ExecuteMany (DeleteWhere table column) (map (fun key => [key]) np_array))
    = (d, inl e) ->
  delete_data np_array table column s =
  (Raise e, mkState d (frame s),
   [Call (ExecuteMany (DeleteWhere table column) (map (fun key => [key]) np_array)) (inl e);
    Print [Txt "Execution Statement Failed:"];
    Print [Txt ("DELETE FROM " +:+ table +:+ " WHERE " +:+ column +:+ " = :1")]]).
Proof.
  intros Hne Hdrive. destruct np_array as [|key keys]; [done|].
  unfold delete_data, try_except, bind, db_call, print, raise.
  cbn [length Nat.eqb negb]. by rewrite Hdrive.
Qed.

(** C8.  On the empty key set [delete_data] makes no call to the driver,
    raises nothing and prints that it does not delete; on a non-empty key
    set it makes exactly one batched call, the single-column DELETE with
    the positional bind [:1], carrying one 1-tuple per key. *)
Theorem delete_data_calls table column (s : state D) :
  delete_data [] table column s =
    (Return tt, s, [Print [Txt "Not deleting - Array has length 0"]]) /\
  forall key keys,
    calls (delete_data (key :: keys) table column s).2 =
      [ExecuteMany (DeleteWhere table column) (map (fun k => [k]) (key :: keys))] /\
    render (DeleteWhere table column) =
      "DELETE FROM " +:+ table +:+ " WHERE " +:+ column +:+ " = :1".
Proof.
  split; [reflexivity|]. intros key keys. split; [|reflexivity].
  unfold delete_data, try_except, bind, db_call, print, raise.
  cbn [length Nat.eqb negb].
  by destruct (drive (conn s) _) as [d [e|r]].
Qed.
End KeyedDelete.

Lemma delete_data_reraises_witness :
  delete_data [Int 1; Int 2] "T" "ID" Examples.failing_first =
  (Raise Examples.unique_violation, mkState [] Examples.people,
   [Call (ExecuteMany (DeleteWhere "T" "ID") [[Int 1]; [Int 2]])
         (inl Examples.unique_violation);
    Print [Txt "Execution Statement Failed:"];
    Print [Txt "DELETE FROM T WHERE ID = :1"]]).
Proof.
  apply (delete_data_reraises [Int 1; Int 2] "T" "ID" Examples.failing_first).
  - discriminate.
  - reflexivity.
Defined.

(** ** Schema reconciliation *)

Lemma upper_ascii_idemp c : upper_ascii (upper_ascii c) = upper_ascii c.
Proof. destruct c as [[] [] [] [] [] [] [] []]; reflexivity. Qed.

Lemma upper_idemp s : upper (upper s) = upper s.
Proof. induction s as [|c s IH]; simpl; [done|]. by rewrite upper_ascii_idemp, IH. Qed.

Lemma upper_app s1 s2 : upper (s1 +:+ s2) = upper s1 +:+ upper s2.
Proof. induction s1 as [|c s1 IH]; simpl; [done|]. by rewrite IH. Qed.

Lemma py_in_true x l : py_in x l = true <-> x ∈ l.
Proof. unfold py_in. by rewrite bool_decide_eq_true. Qed.




Lemma oracle_order_loop_inv table cols desc acc order :
  oracle_order_loop table cols desc acc = inr order ->
  order = acc ++ desc /\ forall c, c ∈ desc -> c ∈ cols.
Proof.
  revert acc. induction desc as [|c desc IH]; intros acc; simpl.
  - intros [= <-]. split; [by rewrite app_nil_r|]. intros c Hc. by apply elem_of_nil in Hc.
  - destruct (py_in c cols) eqn:Hc; simpl; [|done].
    intros [-> Hall]%IH. split; [by rewrite <- app_assoc|].
    intros c' [->|Hc']%elem_of_cons; [by apply py_in_true|by apply Hall].
Qed.

Lemma index_of_lookup (l : list string) i c :
  NoDup l -> l !! i = Some c -> index_of c l = Some i.
Proof.
  intros Hnd Hi. unfold index_of.
  destruct (list_find (fun x => x = c) l) as [[j y]|] eqn:Hfind; simpl.
  - apply list_find_Some in Hfind as (Hj & -> & _).
    f_equal. by eapply NoDup_lookup.
  - apply list_find_None in Hfind. rewrite Forall_forall in Hfind.
    exfalso. eapply Hfind; [|done]. by eapply list_elem_of_lookup_2.
Qed.

Lemma cell_at_own_labels (labels : list string) (row : list cell) :
  NoDup labels -> length row = length labels ->
  map (cell_at labels row) labels = row.
Proof.
  intros Hnd Hlen. apply list_eq. intros i. rewrite list_lookup_fmap.
  destruct (labels !! i) as [c|] eqn:Hi; simpl.
  - unfold cell_at. rewrite (index_of_lookup labels i c) by done.
    destruct (row !! i) as [v|] eqn:Hv; [done|].
    apply lookup_ge_None in Hv. apply lookup_lt_Some in Hi. lia.
  - apply lookup_ge_None in Hi. symmetry. apply lookup_ge_None. lia.
Qed.


Lemma to_records_inv df data :
  to_records df = inr data ->
  data = values df /\ columns df <> [] /\ NoDup (columns df).
Proof.
  unfold to_records. destruct (decide (columns df = [])); [done|].
  destruct (decide (NoDup (columns df))); [|done]. by intros [= <-].
Qed.


(** The rows of a rectangular frame with distinct upper-cased labels,
    reindexed on [S]. *)
Lemma reindex_values df S df1 :
  well_formed df -> NoDup (map upper (columns df)) ->
  reindex (mkDataFrame (map upper (columns df)) (values df)) S = inr df1 ->
  values (replace_nulls df1) = reconciled df S.
Proof.
  intros Hwf Hnd. unfold reindex. cbn [columns values].
  destruct (decide (map upper (columns df) = S)) as [Heq|Hne].
  - intros [= <-]. unfold replace_nulls, reconciled. cbn.
    apply list_eq_Forall2. apply Forall2_fmap, Forall_Forall2_diag.
    eapply Forall_impl; [exact Hwf|]. intros row Hrow. cbn.
    rewrite <- Heq.
    rewrite <- (cell_at_own_labels (map upper (columns df)) row) at 1;
      [|done|by rewrite length_map].
    by rewrite <- list_fmap_compose.
  - destruct (decide (NoDup (map upper (columns df)))); [|done].
    intros [= <-]. unfold replace_nulls, reconciled. cbn.
    rewrite <- list_fmap_compose. apply list_fmap_ext. intros _ row _. cbn.
    by rewrite <- list_fmap_compose.
Qed.


Section Reconciliation.
Context {D : Type} `{Driver D}.

Lemma format_data_run table return_col_names (s : state D) :
  format_data table return_col_names s =
  match drive (conn s) (Execute (SelectFirstRow table)) with
  | (d, inl e) =>
      (Raise e, mkState d (frame s), [Call (Execute (SelectFirstRow table)) (inl e)])
  | (d, inr r) =>
      let df := mkDataFrame (map upper (columns (frame s))) (values (frame s)) in
      let t := [Call (Execute (SelectFirstRow table)) (inr r)] in
      match oracle_order_loop table (columns df) (description r) [] with
      | inl e => (Raise e, mkState d df, t)
      | inr oracle_order =>
          match reindex df oracle_order with
          | inl e => (Raise e, mkState d df, t)
          | inr df1 =>
              match to_records (replace_nulls df1) with
              | inl e => (Raise e, mkState d df, t)
              | inr data =>
                  (Return (data, if return_col_names then Some oracle_order else None),
                   mkState d df, t)
              end
          end
      end
  end.
Proof.
  unfold format_data, bind, db_call, get_columns, set_columns, get_frame, lift, raise, ret.
  destruct (drive (conn s) (Execute (SelectFirstRow table))) as [d [e|r]]; [done|].
  cbn. destruct (oracle_order_loop _ _ _ _) as [e|order]; [done|].
  destruct (reindex _ _) as [e|df1]; [done|].
  destruct (to_records _) as [e|data]; [done|].
  by destruct return_col_names.
Qed.

End Reconciliation.



(** ** The merge *)

Section Staging.
Context {D : Type} `{Driver D}.

Lemma diagnostics_staging stmt data e : Forall staging (diagnostics stmt data e).
Proof.
  unfold diagnostics. repeat (apply Forall_app; split);
    try (apply Forall_forall; intros ev [row [-> _]]%list_elem_of_fmap; exact I);
    repeat constructor.
Qed.

Lemma append_loop_staging B tb l table all_data :
  forall n start_pos (s : state D),
    length all_data - start_pos <= n ->
    Forall staging (append_loop B (InsertValues tb l) table all_data start_pos s).2 /\
    frame (append_loop B (InsertValues tb l) table all_data start_pos s).1.2 = frame s.
Proof.
  induction n as [|n IH]; intros start_pos s Hn; rewrite append_loop_step;
    destruct (slice all_data start_pos (start_pos + B)) as [|r batch] eqn:Hslice;
    try (split; [constructor|done]).
  - apply (f_equal length) in Hslice. unfold slice in Hslice.
    rewrite length_take, length_drop in Hslice. simpl in Hslice. lia.
  - assert (HB : 0 < B /\ start_pos < length all_data).
    { apply (f_equal length) in Hslice. unfold slice in Hslice.
      rewrite length_take, length_drop in Hslice. simpl in Hslice. lia. }
    unfold bind. rewrite append_batch_run.
    destruct (drive (conn s) (ExecuteMany (InsertValues tb l) (r :: batch))) as [d [e|v]].
    + split; [|done]. cbn [snd]. apply Forall_app. split; [|apply diagnostics_staging].
      repeat constructor.
    + destruct (IH (start_pos + B) (mkState d (frame s))) as [Hst Hfr]; [lia|].
      destruct (append_loop B (InsertValues tb l) table all_data (start_pos + B)
                  (mkState d (frame s))) as [[o2 s2] t2].
      split; [|done]. cbn [snd] in *. by repeat constructor.
Qed.

Lemma append_data_staging all_data table truncate (s : state D) :
  Forall staging (append_data all_data table truncate s).2 /\
  frame (append_data all_data table truncate s).1.2 = frame s.
Proof.
  unfold append_data, append_data_batched, bind, print, lift.
  destruct (all_data !! 0) as [first|]; unfold raise, ret.
  2:{ split; [repeat constructor|done]. }
  set (stmt := InsertValues table _).
  destruct truncate.
  - rewrite truncate_data_run.
    destruct (drive (conn s) (Execute (DeleteAll table))) as [d [e0|r]].
    + split; [repeat constructor|done].
    + destruct (append_loop_staging BATCH_SIZE table
                  (map (fun x => x + 1) (seq 0 (length first))) table all_data
                  (length all_data) 0 (mkState d (frame s))) as [Hst Hfr]; [lia|].
      fold stmt in Hst, Hfr.
      destruct (append_loop BATCH_SIZE stmt table all_data 0 (mkState d (frame s)))
        as [[o s'] t]. cbn in *. split; [by repeat constructor|done].
  - destruct (append_loop_staging BATCH_SIZE table
                (map (fun x => x + 1) (seq 0 (length first))) table all_data
                (length all_data) 0 s) as [Hst Hfr]; [lia|].
    fold stmt in Hst, Hfr.
    destruct (append_loop BATCH_SIZE stmt table all_data 0 s) as [[o s'] t].
    cbn in *. split; [by repeat constructor|done].
Qed.

(** [append_df]: its events are those of staging; and once the schema
    query has answered, the caller's frame carries upper-case labels
    whatever happens next. *)
Lemma append_df_staging table truncate (s : state D) :
  Forall staging (append_df table truncate s).2.
Proof.
  unfold append_df, bind. rewrite format_data_run.
  destruct (drive (conn s) (Execute (SelectFirstRow table))) as [d [e|r]];
    [repeat constructor|].
  cbn zeta. destruct (oracle_order_loop _ _ _ _) as [e|order]; [repeat constructor|].
  destruct (reindex _ _) as [e|df1]; [repeat constructor|].
  destruct (to_records _) as [e|data]; [repeat constructor|]. cbn [fst].
  match goal with |- context [append_data ?a ?b ?c ?st] =>
    destruct (append_data_staging a b c st) as [Hst _];
    destruct (append_data a b c st) as [[o s'] t] end.
  cbn in *. by repeat constructor.
Qed.



End Staging.

Section Merge.
Context {D : Type} `{Driver D}.

Lemma update_join_run table join_keys commit (s : state D) :
  update_join table join_keys commit s =
  and_then (merge_head table join_keys s) (fun _ s2 =>
  and_then (append_df (temp_table table) false s2) (fun _ s3 =>
  merge_tail table join_keys commit s3)).
Proof.
  unfold update_join, merge_head, and_then, statement_create, statement_add_pk.
  unfold bind at 1. unfold print at 1. unfold bind at 1. unfold db_call at 1.
  destruct (drive (conn s) (Execute (CreateTableAs _ table))) as [d1 [e|r1]]; [done|].
  unfold bind at 1. unfold print at 1. unfold bind at 1. unfold db_call at 1.
  cbn [conn frame].
  destruct (drive d1 (Execute (AddPrimaryKey _ join_keys))) as [d2 [e|r2]]; [done|].
  unfold bind at 1. cbn [app].
  destruct (append_df _ false _) as [[[a|e|n] s3] t3]; [|done|done].
  unfold merge_tail, commit_transactions, statement_update, statement_delete_temp,
    statement_append_from_temp, decision, bind, print, db_call, get_columns, ret.
  cbn [conn frame].
  destruct (drive (conn s3) _) as [d4 [e|r4]]; simpl; [done|].
  destruct (drive d4 _) as [d5 [e|r5]]; simpl; [done|].
  destruct (drive d5 _) as [d6 [e|r6]]; simpl; [done|].
  destruct commit; simpl.
  - destruct (drive d6 Commit) as [d7 [e|r7]]; simpl; [done|].
    by destruct (drive d7 _) as [d8 [e|r8]].
  - destruct (drive d6 Rollback) as [d7 [e|r7]]; simpl; [done|].
    by destruct (drive d7 _) as [d8 [e|r8]].
Qed.

Lemma calls_app t1 t2 : calls (t1 ++ t2) = calls t1 ++ calls t2.
Proof. apply omap_app. Qed.

Lemma staging_harmless t : Forall staging t -> Forall harmless (calls t).
Proof.
  induction 1 as [|ev t Hev _ IH]; [constructor|].
  destruct ev as [[[]|[]| |] r|line]; simpl in *; try done; by constructor.
Qed.

Lemma harmless_app t1 t2 :
  Forall harmless (calls t1) -> Forall harmless (calls t2) ->
  Forall harmless (calls (t1 ++ t2)).
Proof. intros H1 H2. rewrite calls_app. by apply Forall_app. Qed.

Lemma harmless_call c r t :
  harmless c -> Forall harmless (calls t) -> Forall harmless (calls (Call c r :: t)).
Proof. intros Hc Ht. by constructor. Qed.

Lemma harmless_print line t :
  Forall harmless (calls t) -> Forall harmless (calls (Print line :: t)).
Proof. done. Qed.

Ltac harmless_trace :=
  unfold creating_line, adding_key_line, updating_line, updated_line, purged_line,
    remainder_line, decided_line, dropping_line, statement_update,
    statement_delete_temp, statement_append_from_temp;
  repeat match goal with
    | |- Forall harmless (calls (_ ++ _)) => apply harmless_app
    | |- Forall harmless (calls (Print _ :: _)) => apply harmless_print
    | |- Forall harmless (calls (Call _ _ :: _)) => apply harmless_call
    | |- Forall harmless (calls []) => constructor
    | |- harmless _ => exact I
    | |- _ => assumption
    end.

(** The calls of the second block: the three statements of the merge, then
    the decision, then the drop, as far as the run gets. *)
Lemma merge_tail_calls table join_keys commit (s : state D) :
  exists hc rest,
    calls (merge_tail table join_keys commit s).2 = hc ++ rest /\
    Forall harmless hc /\
    (rest = [] \/ rest = [decision commit] \/
     rest = [decision commit; Execute (DropTable (temp_table table))]).
Proof.
  unfold merge_tail.
  destruct (drive (conn s) _) as [d1 [e|r1]]; cbn beta iota zeta.
  { eexists _, []. rewrite app_nil_r. split; [reflexivity|]. split; [|by left].
    cbn [snd]. harmless_trace. }
  destruct (drive d1 _) as [d2 [e|r2]]; cbn beta iota zeta.
  { eexists _, []. rewrite app_nil_r. split; [reflexivity|]. split; [|by left].
    cbn [snd]. harmless_trace. }
  destruct (drive d2 _) as [d3 [e|r3]]; cbn beta iota zeta.
  { eexists _, []. rewrite app_nil_r. split; [reflexivity|]. split; [|by left].
    cbn [snd]. harmless_trace. }
  set (hc := [Execute (statement_update table join_keys (columns (frame s)));
              Execute (statement_delete_temp table join_keys);
              Execute (statement_append_from_temp table)]).
  assert (Hhc : Forall harmless hc) by (by repeat constructor).
  destruct (drive d3 _) as [d4 [e|r4]]; cbn beta iota zeta.
  { exists hc, [decision commit]. split; [reflexivity|]. split; [done|]. by right; left. }
  destruct (drive d4 _) as [d5 [e|r5]]; cbn beta iota zeta.
  all: exists hc, [decision commit; Execute (DropTable (temp_table table))];
    (split; [reflexivity|]); (split; [done|]); by right; right.
Qed.

(** The calls of a merge: harmless ones, then possibly the decision, then
    possibly the drop. *)
Lemma update_join_calls table join_keys commit (s : state D) :
  exists hc rest,
    calls (update_join table join_keys commit s).2 = hc ++ rest /\
    Forall harmless hc /\
    (rest = [] \/ rest = [decision commit] \/
     rest = [decision commit; Execute (DropTable (temp_table table))]).
Proof.
  rewrite update_join_run. unfold and_then, merge_head.
  destruct (drive (conn s) _) as [d1 [e|r1]]; cbn beta iota zeta.
  { eexists _, []. rewrite app_nil_r. split; [reflexivity|]. split; [|by left].
    cbn [snd]. harmless_trace. }
  destruct (drive d1 _) as [d2 [e|r2]]; cbn beta iota zeta.
  { eexists _, []. rewrite app_nil_r. split; [reflexivity|]. split; [|by left].
    cbn [snd]. harmless_trace. }
  pose proof (append_df_staging (temp_table table) false (mkState d2 (frame s))) as Hst.
  destruct (append_df _ false _) as [[[a|e|n] s3] t3]; cbn [snd] in Hst;
    apply staging_harmless in Hst; cbn beta iota zeta.
  2,3: eexists _, []; rewrite app_nil_r; (split; [reflexivity|]); (split; [|by left]);
       cbn [snd]; harmless_trace.
  destruct (merge_tail_calls table join_keys commit s3) as (hc & rest & Hcalls & Hhc & Hrest).
  destruct (merge_tail table join_keys commit s3) as [[o4 s4] t4]. cbn [snd] in *.
  match goal with |- context [calls (?h ++ t3 ++ t4)] =>
    exists (calls h ++ calls t3 ++ hc), rest; assert (Forall harmless (calls h))
      by harmless_trace end.
  split; [|split; [|done]].
  - by rewrite !calls_app, Hcalls, <- !app_assoc.
  - by rewrite !Forall_app.
Qed.

(** C4.  In the calls a merge makes, a DROP TABLE is the last call, it
    drops the scratch table, and the call just before it is the commit
    (flag set) or the rollback (flag clear); no call before that one ends
    the transaction or drops a table.  So the decision driven by the
    caller's flag always comes strictly before the drop, in every run,
    whichever calls raise. *)
Theorem update_join_commit_before_drop table join_keys commit (s : state D)
    pre dropped post :
  calls (update_join table join_keys commit s).2 =
    pre ++ Execute (DropTable dropped) :: post ->
  exists hc, pre = hc ++ [decision commit] /\ Forall harmless hc /\
             post = [] /\ dropped = temp_table table.
Proof.
  destruct (update_join_calls table join_keys commit s) as (hc & rest & -> & Hhc & Hrest).
  intros Heq.
  assert (Hnn : Forall (fun c => ~ ~ harmless c) hc)
    by (eapply Forall_impl; [exact Hhc|]; by intros c Hc Hn).
  destruct (split_after (fun c => ~ harmless c) hc rest pre post
              (Execute (DropTable dropped)) Hnn (fun Hc => Hc) Heq)
    as (pre' & -> & Heq').
  exists hc. destruct Hrest as [->|[->| ->]].
  - by destruct pre'.
  - destruct pre' as [|? [|? ?]]; [|done|done]. injection Heq' as Heq'. by destruct commit.
  - destruct pre' as [|c1 [|c2 [|? ?]]]; [| |done|done].
    + injection Heq' as Heq' _. by destruct commit.
    + by injection Heq' as <- <- <-.
Qed.

End Merge.

Lemma update_join_commit_before_drop_witness :
  exists hc,
    take 8 (calls (update_join "ITEMS" ["ID"] true
                     (mkState Examples.shop Examples.changes)).2) = hc ++ [decision true] /\
    Forall harmless hc /\ @nil call = [] /\ "TEMP_ITEMS" = temp_table "ITEMS".
Proof.
  apply (update_join_commit_before_drop "ITEMS" ["ID"] true
           (mkState Examples.shop Examples.changes)).
  vm_compute. reflexivity.
Defined.

(** ** The merge on the relational model *)

Module OracleMerge.
Import Oracle.

Lemma ident_idemp c : ident (ident c) = ident c.
Proof. apply upper_idemp. Qed.

Lemma length_append s1 s2 :
  String.length (s1 +:+ s2) = String.length s1 + String.length s2.
Proof. induction s1 as [|c s1 IH]; simpl; [done|]. by rewrite IH. Qed.

Lemma temp_table_distinct table : ident (temp_table table) <> ident table.
Proof.
  unfold ident, temp_table. rewrite upper_app. intros Heq.
  apply (f_equal String.length) in Heq. rewrite length_append in Heq.
  change (String.length (upper "TEMP_")) with 5 in Heq. lia.
Qed.

(** What each statement of the merge does when it does not raise. *)

Lemma create_table_as_ok d temp_table table d' r :
  run d (Execute (CreateTableAs temp_table table)) = (d', inr r) ->
  exists Tg,
    working d !! ident table = Some Tg /\
    working d !! ident temp_table = None /\
    working d' = <[ident temp_table := mkTable (t_columns Tg) [] []]> (working d) /\
    committed d' = working d'.
Proof.
  cbn [run]. unfold exec_create_table_as, implicit_commit, store, answer, refuse.
  cbn [working committed].
  destruct (working d !! ident table) as [Tg|]; [|done].
  destruct (working d !! ident temp_table); [done|].
  intros [= <- _]. by exists Tg.
Qed.

Lemma add_primary_key_ok d temp_table join_keys d' r Sc :
  working d !! ident temp_table = Some Sc ->
  run d (Execute (AddPrimaryKey temp_table join_keys)) = (d', inr r) ->
  join_keys <> [] /\
  Forall (fun k => ident k ∈ t_columns Sc) join_keys /\
  working d' = <[ident temp_table :=
                   mkTable (t_columns Sc) (map ident join_keys) (t_rows Sc)]> (working d) /\
  committed d' = working d'.
Proof.
  intros HSc. cbn [run]. unfold exec_add_primary_key, implicit_commit, store, answer, refuse.
  cbn [working committed]. rewrite HSc.
  case_bool_decide as Hne; [done|].
  destruct (forallb _ join_keys) eqn:Hcols; [|done]. cbn [negb].
  case_bool_decide as Hnd; [|done]. cbn [negb].
  case_bool_decide as Hk; [|done]. cbn [negb].
  destruct (key_ok _ _ _); [|done]. cbn [negb].
  intros [= <- _]. split; [done|]. split; [|done].
  apply Forall_forall. intros k Hin. rewrite forallb_forall in Hcols.
  apply py_in_true, Hcols. by apply list_elem_of_In.
Qed.

Lemma select_first_row_ok d table d' r :
  run d (Execute (SelectFirstRow table)) = (d', inr r) ->
  exists Tg, working d !! ident table = Some Tg /\ d' = d /\ description r = t_columns Tg.
Proof.
  cbn [run]. unfold exec_select_first_row, answer, refuse.
  destruct (working d !! ident table) as [Tg|]; [|done].
  intros [= <- <-]. by exists Tg.
Qed.

Lemma insert_values_ok d table l data d' r Tg :
  working d !! ident table = Some Tg ->
  run d (ExecuteMany (InsertValues table l) data) = (d', inr r) ->
  length l = length (t_columns Tg) /\
  key_ok (t_columns Tg) (t_key Tg) (t_rows Tg ++ data) = true /\
  working d' = <[ident table := with_rows Tg (t_rows Tg ++ data)]> (working d) /\
  committed d' = committed d.
Proof.
  intros HTg. cbn [run]. unfold exec_insert_values, store, answer, refuse. rewrite HTg.
  case_bool_decide; [done|].
  destruct (Nat.eqb _ _) eqn:Hlen; [|done]. cbn [negb].
  match goal with |- context [forallb ?f data] => destruct (forallb f data) end; [|done].
  cbn [negb].
  destruct (key_ok _ _ _) eqn:Hkey; [|done]. cbn [negb].
  intros [= <- _]. by apply Nat.eqb_eq in Hlen.
Qed.

Lemma update_join_ok d table temp_table sel jn st d' r :
  run d (Execute (UpdateJoin table temp_table sel jn st)) = (d', inr r) ->
  exists Tg Sc,
    working d !! ident table = Some Tg /\
    working d !! ident temp_table = Some Sc /\
    Forall (fun c => ident c ∈ t_columns Tg /\ ident c ∈ t_columns Sc) (sel ++ jn) /\
    t_key Sc <> [] /\
    Forall (fun k => k ∈ map ident jn) (t_key Sc) /\
    working d' =
      <[ident table :=
          with_rows Tg (map (update_row (t_columns Tg) (t_columns Sc) jn st (t_rows Sc))
                            (t_rows Tg))]> (working d) /\
    committed d' = committed d.
Proof.
  cbn [run]. unfold exec_update_join, store, answer, refuse.
  destruct (working d !! ident table) as [Tg|]; [|done].
  destruct (working d !! ident temp_table) as [Sc|]; [|done].
  destruct (_ || _ || _); [done|].
  destruct (forallb _ (sel ++ jn)) eqn:Hcols; [|done]. cbn [negb].
  destruct (forallb _ st); [|done]. cbn [negb].
  case_bool_decide as Hkey; [done|]. cbn [orb].
  destruct (forallb _ (t_key Sc)) eqn:Hpres; [|done]. cbn [negb].
  destruct (key_ok _ _ _); [|done]. cbn [negb].
  intros [= <- _]. exists Tg, Sc. repeat split; try done.
  - apply Forall_forall. intros c Hc. rewrite forallb_forall in Hcols.
    apply list_elem_of_In, Hcols, andb_true_iff in Hc as [H1 H2].
    split; by apply py_in_true.
  - apply Forall_forall. intros k Hk. rewrite forallb_forall in Hpres.
    apply py_in_true, Hpres. by apply list_elem_of_In.
Qed.

Lemma delete_matched_ok d temp_table table jn d' r :
  run d (Execute (DeleteMatched temp_table table jn)) = (d', inr r) ->
  exists Tg Sc,
    working d !! ident table = Some Tg /\
    working d !! ident temp_table = Some Sc /\
    working d' =
      <[ident temp_table :=
          with_rows Sc (filter (fun s => matched (t_columns Tg) (t_columns Sc) jn
                                                 (t_rows Tg) s = false) (t_rows Sc))]>
        (working d) /\
    committed d' = committed d.
Proof.
  cbn [run]. unfold exec_delete_matched, store, answer, refuse.
  destruct (working d !! ident table) as [Tg|]; [|done].
  destruct (working d !! ident temp_table) as [Sc|]; [|done].
  case_bool_decide; [done|].
  destruct (forallb _ jn); [|done]. cbn [negb].
  intros [= <- _]. by exists Tg, Sc.
Qed.

Lemma insert_from_temp_ok d table temp_table d' r :
  run d (Execute (InsertFromTemp table temp_table)) = (d', inr r) ->
  exists Tg Sc,
    working d !! ident table = Some Tg /\
    working d !! ident temp_table = Some Sc /\
    working d' = <[ident table := with_rows Tg (t_rows Tg ++ t_rows Sc)]> (working d) /\
    committed d' = committed d.
Proof.
  cbn [run]. unfold exec_insert_from_temp, store, answer, refuse.
  destruct (working d !! ident table) as [Tg|]; [|done].
  destruct (working d !! ident temp_table) as [Sc|]; [|done].
  destruct (Nat.eqb _ _); [|done]. cbn [negb].
  destruct (key_ok _ _ _); [|done]. cbn [negb].
  intros [= <- _]. by exists Tg, Sc.
Qed.

Lemma drop_table_ok d temp_table d' r :
  run d (Execute (DropTable temp_table)) = (d', inr r) ->
  working d' = delete (ident temp_table) (working d) /\ committed d' = working d'.
Proof.
  cbn [run]. unfold exec_drop_table, implicit_commit, answer, refuse. cbn [working committed].
  destruct (working d !! ident temp_table); [|done].
  by intros [= <- _].
Qed.

(** *** Rows *)

Lemma index_of_elem c (l : list string) :
  c ∈ l -> exists i, index_of c l = Some i /\ l !! i = Some c.
Proof.
  intros Hc. unfold index_of.
  destruct (list_find (fun x => x = c) l) as [[i y]|] eqn:Hfind; simpl.
  - apply list_find_Some in Hfind as (Hi & -> & _). by exists i.
  - apply list_find_None in Hfind. rewrite Forall_forall in Hfind. by destruct (Hfind c).
Qed.

(** A column of an overwritten row holds the scratch row's value when the
    SET clause names it, and the old value otherwise. *)
Lemma field_overwrite ct cs st t s c :
  c ∈ ct ->
  field ct (overwrite ct cs st t s) c =
  if py_in c (map ident st) then field cs s c else field ct t c.
Proof.
  intros Hc. destruct (index_of_elem c ct Hc) as (i & Hidx & Hi).
  unfold field at 1. rewrite Hidx. unfold overwrite.
  by rewrite list_lookup_fmap, Hi.
Qed.

Lemma sql_eq_eq a b : sql_eq a b = true -> a = b.
Proof.
  unfold sql_eq. intros [_ Heq]%andb_true_iff. by apply bool_decide_eq_true in Heq.
Qed.

Lemma matches_spec ct cs jn t s :
  matches ct cs jn t s = true <->
  forall k, k ∈ jn -> sql_eq (col_value ct t k) (col_value cs s k) = true.
Proof.
  unfold matches. rewrite forallb_forall. split.
  - intros Hall k Hk. by apply Hall, list_elem_of_In.
  - intros Hall k Hk. by apply Hall, list_elem_of_In.
Qed.

(** The update leaves the join-key values of every row as they were. *)
Lemma update_row_keys ct cs jn st scratch t k :
  k ∈ jn -> ident k ∈ ct ->
  col_value ct (update_row ct cs jn st scratch t) k = col_value ct t k.
Proof.
  intros Hk Hcol. unfold update_row.
  destruct (find (matches ct cs jn t) scratch) as [s|] eqn:Hfind; [|done].
  apply find_some in Hfind as [_ Hm].
  unfold col_value at 1. rewrite field_overwrite by done.
  destruct (py_in _ _); [|done].
  rewrite (matches_spec ct cs jn t s) in Hm. symmetry. by apply sql_eq_eq, Hm.
Qed.

Lemma matches_update_row ct cs cs' jn st scratch t s :
  Forall (fun k => ident k ∈ ct) jn ->
  matches ct cs' jn (update_row ct cs jn st scratch t) s = matches ct cs' jn t s.
Proof.
  intros Hcols. unfold matches.
  cut (forall l, (forall k, k ∈ l -> k ∈ jn) ->
         forallb (fun k => sql_eq (col_value ct (update_row ct cs jn st scratch t) k)
                                  (col_value cs' s k)) l =
         forallb (fun k => sql_eq (col_value ct t k) (col_value cs' s k)) l).
  { intros Hcut. by apply Hcut. }
  induction l as [|k l IH]; intros Hsub; simpl; [done|].
  rewrite update_row_keys, IH; [done| | |].
  - intros k' Hk'. apply Hsub. by right.
  - apply Hsub. by left.
  - rewrite Forall_forall in Hcols. apply Hcols, Hsub. by left.
Qed.

Lemma matched_update_rows ct cs cs' jn st scratch target s :
  Forall (fun k => ident k ∈ ct) jn ->
  matched ct cs' jn (map (update_row ct cs jn st scratch) target) s =
  matched ct cs' jn target s.
Proof.
  intros Hcols. unfold matched. induction target as [|t target IH]; simpl; [done|].
  by rewrite matches_update_row, IH.
Qed.

(** Two rows of a table that satisfies its key agree on the key only if
    they are the same row. *)
Lemma key_ok_unique cols key rows r1 r2 :
  key <> [] -> key_ok cols key rows = true ->
  r1 ∈ rows -> r2 ∈ rows -> key_of cols key r1 = key_of cols key r2 -> r1 = r2.
Proof.
  intros Hkey Hok H1 H2 Heq. unfold key_ok in Hok.
  destruct key as [|k key]; [done|].
  apply andb_true_iff in Hok as [_ Hnd]. apply bool_decide_eq_true in Hnd.
  apply list_elem_of_lookup in H1 as [i Hi]. apply list_elem_of_lookup in H2 as [j Hj].
  assert (i = j); [|congruence].
  eapply NoDup_lookup; [exact Hnd| |]; rewrite list_lookup_fmap.
  - by rewrite Hi.
  - by rewrite Hj, Heq.
Qed.

Lemma col_value_ident cols row k : col_value cols row (ident k) = col_value cols row k.
Proof. unfold col_value. by rewrite ident_idemp. Qed.

(** Under a key made of join columns, at most one scratch row joins a
    given target row. *)
Lemma matches_unique ct cs jn key rows t s1 s2 :
  key <> [] -> Forall (fun k => k ∈ map ident jn) key ->
  key_ok cs key rows = true ->
  s1 ∈ rows -> s2 ∈ rows ->
  matches ct cs jn t s1 = true -> matches ct cs jn t s2 = true -> s1 = s2.
Proof.
  intros Hkey Hsub Hok H1 H2 Hm1 Hm2.
  apply (key_ok_unique cs key rows); [done..|].
  unfold key_of. apply list_fmap_ext. intros i k' Hk'.
  apply list_elem_of_lookup_2 in Hk'. rewrite Forall_forall in Hsub.
  apply Hsub, list_elem_of_fmap in Hk' as (k & -> & Hk).
  rewrite !col_value_ident. rewrite matches_spec in Hm1, Hm2.
  rewrite <- (sql_eq_eq _ _ (Hm1 k Hk)). by apply sql_eq_eq, Hm2.
Qed.

Lemma find_matches ct cs jn key rows t s :
  key <> [] -> Forall (fun k => k ∈ map ident jn) key ->
  key_ok cs key rows = true ->
  s ∈ rows -> matches ct cs jn t s = true ->
  find (matches ct cs jn t) rows = Some s.
Proof.
  intros Hkey Hsub Hok Hs Hm.
  destruct (find (matches ct cs jn t) rows) as [s'|] eqn:Hfind.
  - apply find_some in Hfind as [Hin Hm']. f_equal.
    eapply matches_unique; try done. by apply list_elem_of_In.
  - eapply find_none in Hfind; [|by apply list_elem_of_In]. congruence.
Qed.

(** With the SET clause the module builds, a column outside the join keys
    takes the scratch row's value. *)
Lemma overwrite_non_key ct cs join_keys df_columns t s c :
  c ∈ ct -> c ∈ df_columns -> upper c = c -> c ∉ map ident join_keys ->
  field ct (overwrite ct cs (filter (fun col => col ∉ join_keys) df_columns) t s) c =
  field cs s c.
Proof.
  intros Hc Hdf Hup Hnk. rewrite field_overwrite by done.
  assert (Hst : c ∈ map ident (filter (fun col => col ∉ join_keys) df_columns)).
  { apply list_elem_of_fmap. exists c. split; [done|].
    apply list_elem_of_filter. split; [|done].
    intros Hin. apply Hnk, list_elem_of_fmap. by exists c. }
  apply py_in_true in Hst. by rewrite Hst.
Qed.

(** *** Staging on the model *)

Lemma with_rows_id Tg : with_rows Tg (t_rows Tg) = Tg.
Proof. by destruct Tg. Qed.

(** A returning run of the insert loop has put the rest of the input, from
    [start_pos] on, after the rows the table had. *)
Lemma append_loop_model B tb l table all_data :
  0 < B ->
  forall n start_pos (s s' : state db) t Sc,
    length all_data - start_pos <= n ->
    working (conn s) !! ident tb = Some Sc ->
    append_loop B (InsertValues tb l) table all_data start_pos s = (Return tt, s', t) ->
    working (conn s') =
      <[ident tb := with_rows Sc (t_rows Sc ++ drop start_pos all_data)]> (working (conn s)) /\
    committed (conn s') = committed (conn s) /\
    frame s' = frame s /\
    (drop start_pos all_data <> [] ->
     key_ok (t_columns Sc) (t_key Sc) (t_rows Sc ++ drop start_pos all_data) = true /\
     length l = length (t_columns Sc)).
Proof.
  intros HB.
  assert (Hstop : forall start_pos (s s' : state db) t Sc,
    working (conn s) !! ident tb = Some Sc ->
    slice all_data start_pos (start_pos + B) = [] ->
    (ret tt s : outcome unit * state db * list event) = (Return tt, s', t) ->
    working (conn s') =
      <[ident tb := with_rows Sc (t_rows Sc ++ drop start_pos all_data)]> (working (conn s)) /\
    committed (conn s') = committed (conn s) /\
    frame s' = frame s /\
    (drop start_pos all_data <> [] ->
     key_ok (t_columns Sc) (t_key Sc) (t_rows Sc ++ drop start_pos all_data) = true /\
     length l = length (t_columns Sc))).
  { intros start_pos s s' t Sc HSc Hslice [= <- <-].
    apply slice_nil_iff in Hslice as [->|Hge]; [lia|].
    rewrite drop_ge, app_nil_r, with_rows_id, insert_id by done. done. }
  induction n as [|n IH]; intros start_pos s s' t Sc Hn HSc Hrun;
    rewrite append_loop_step in Hrun;
    destruct (slice all_data start_pos (start_pos + B)) as [|r batch] eqn:Hslice;
    try (by eapply Hstop).
  - apply (f_equal length) in Hslice. unfold slice in Hslice.
    rewrite length_take, length_drop in Hslice. simpl in Hslice. lia.
  - assert (Hbatch : r :: batch = take B (drop start_pos all_data)).
    { rewrite <- Hslice. unfold slice. f_equal. lia. }
    unfold bind in Hrun. rewrite append_batch_run in Hrun.
    destruct (drive (conn s) (ExecuteMany (InsertValues tb l) (r :: batch)))
      as [d [e|v]] eqn:Hdrive; [done|].
    apply (insert_values_ok _ _ _ _ _ _ Sc HSc) in Hdrive as (Hlen & Hkey & Hw & Hc).
    destruct (append_loop B (InsertValues tb l) table all_data (start_pos + B)
                (mkState d (frame s))) as [[o2 s2] t2] eqn:Hrest.
    injection Hrun as -> <- <-.
    eapply (IH _ _ _ _ (with_rows Sc (t_rows Sc ++ r :: batch))) in Hrest
      as (Hw2 & Hc2 & Hf2 & Hk2); [|lia|by cbn [conn]; rewrite Hw; apply lookup_insert_eq].
    cbn [conn frame with_rows t_rows t_columns t_key] in *.
    assert (Hrows : (t_rows Sc ++ r :: batch) ++ drop (start_pos + B) all_data =
                    t_rows Sc ++ drop start_pos all_data).
    { rewrite <- app_assoc. f_equal. rewrite Hbatch, <- drop_drop. apply take_drop. }
    rewrite Hrows in *.
    split; [by rewrite Hw2, Hw, insert_insert_eq|]. split; [congruence|]. split; [done|].
    intros _. destruct (decide (drop (start_pos + B) all_data = [])) as [Hnil|Hne].
    + rewrite <- Hrows, Hnil, app_nil_r. done.
    + by apply Hk2.
Qed.

Lemma BATCH_SIZE_pos : 0 < BATCH_SIZE.
Proof. apply Nat.ltb_lt. vm_compute. reflexivity. Qed.

(** A returning [append_df] has reconciled the frame with the table's
    columns and put the records after the rows of the table. *)
Lemma append_df_model table (s s' : state db) a t Sc :
  working (conn s) !! ident table = Some Sc ->
  append_df table false s = (Return a, s', t) ->
  exists staged,
    staged_records (frame s) (t_columns Sc) = Some staged /\
    (forall c, c ∈ t_columns Sc -> c ∈ map upper (columns (frame s))) /\
    working (conn s') =
      <[ident table := with_rows Sc (t_rows Sc ++ staged)]> (working (conn s)) /\
    committed (conn s') = committed (conn s) /\
    frame s' = mkDataFrame (map upper (columns (frame s))) (values (frame s)) /\
    key_ok (t_columns Sc) (t_key Sc) (t_rows Sc ++ staged) = true.
Proof.
  intros HSc. destruct a. unfold append_df, bind. rewrite format_data_run.
  destruct (drive (conn s) (Execute (SelectFirstRow table))) as [d [e|r]] eqn:Hsel; [done|].
  apply select_first_row_ok in Hsel as (Sc' & HSc' & -> & Hdesc).
  rewrite HSc in HSc'. injection HSc' as <-. rewrite Hdesc. cbn zeta. cbn [columns].
  destruct (oracle_order_loop _ _ _ _) as [e|order] eqn:Horder; [done|].
  apply oracle_order_loop_inv in Horder as [-> Hall]. cbn [app].
  unfold staged_records.
  destruct (reindex _ _) as [e|df1]; [done|].
  destruct (to_records _) as [e|all_data]; [done|]. cbn [fst].
  unfold append_data, append_data_batched, bind, print, lift.
  destruct (all_data !! 0) as [first|] eqn:Hfirst; [|done]. unfold ret.
  destruct (append_loop _ _ _ _ _ _) as [[o3 s3] t3] eqn:Hloop.
  intros [= -> <- <-].
  eapply (append_loop_model _ _ _ _ _ BATCH_SIZE_pos (length all_data)) in Hloop
    as (Hw & Hc & Hf & Hk); [|lia|done].
  cbn [conn frame] in *. rewrite drop_0 in *.
  exists all_data. repeat split; try done.
  apply Hk. intros Hnil. by rewrite Hnil in Hfirst.
Qed.

(** *** The whole merge *)

Lemma merged_rows_as_claimed T0 join_keys df_columns staged :
  join_keys <> [] ->
  Forall (fun k => ident k ∈ t_columns T0) join_keys ->
  Forall (fun c => upper c = c) df_columns ->
  (forall c, c ∈ t_columns T0 -> c ∈ df_columns) ->
  key_ok (t_columns T0) (map ident join_keys) staged = true ->
  merge_as_claimed T0 join_keys staged
    (with_rows T0 (merged_rows T0 join_keys df_columns staged)).
Proof.
  intros Hjn Hcols Hupper Hall Hkey. unfold merge_as_claimed, merged_rows.
  cbn [with_rows t_columns t_rows].
  set (cols := t_columns T0) in *.
  set (st := filter (fun col => col ∉ join_keys) df_columns).
  assert (Hfind : forall t s, s ∈ staged -> matches cols cols join_keys t s = true ->
                    find (matches cols cols join_keys t) staged = Some s).
  { intros t s Hs Hm. apply (find_matches _ _ _ (map ident join_keys)); try done.
    - by destruct join_keys.
    - by apply Forall_forall. }
  split; [done|]. split.
  - eexists. split; [reflexivity|]. split; [by rewrite length_map|].
    intros i t Hi. rewrite list_lookup_fmap, Hi. cbn. split.
    + intros s Hs Hm. eexists. split; [reflexivity|].
      unfold update_row. rewrite (Hfind t s) by done. split.
      * intros c Hc Hnk. rewrite Forall_forall in Hupper.
        apply overwrite_non_key; try done; [by apply Hall|by apply Hupper, Hall].
      * intros k Hk.
        pose proof (update_row_keys cols cols join_keys st staged t k Hk) as Hkeys.
        unfold update_row in Hkeys. rewrite (Hfind t s) in Hkeys by done.
        apply Hkeys. rewrite Forall_forall in Hcols. by apply Hcols.
    + intros Hnone. unfold update_row.
      destruct (find _ staged) as [s|] eqn:Hfound; [|done].
      apply find_some in Hfound as [Hin Hm]. by destruct (Hnone s); [apply list_elem_of_In|].
  - by rewrite length_app, length_map.
Qed.

(** The state of the database after the statements of a returning merge,
    just before the decision: the target holds the merged rows, the
    scratch table is still there, and nothing has been committed since the
    key was added. *)
Lemma merge_statements_model table join_keys commit (s s' : state db) t T0 :
  working (conn s) !! ident table = Some T0 ->
  update_join table join_keys commit s = (Return tt, s', t) ->
  exists staged w,
    staged_records (frame s) (t_columns T0) = Some staged /\
    merge_as_claimed T0 join_keys staged
      (with_rows T0 (merged_rows T0 join_keys (map upper (columns (frame s))) staged)) /\
    w !! ident table =
      Some (with_rows T0 (merged_rows T0 join_keys (map upper (columns (frame s))) staged)) /\
    (forall name, name <> ident (temp_table table) -> name <> ident table ->
                  w !! name = working (conn s) !! name) /\
    working (conn s') = delete (ident (temp_table table))
                          (if commit then w else
                             <[ident (temp_table table) :=
                                 mkTable (t_columns T0) (map ident join_keys) []]>
                               (working (conn s))) /\
    committed (conn s') = working (conn s').
Proof.
  intros HT0 Hrun. pose proof (temp_table_distinct table) as Hne.
  set (temp := temp_table table) in *.
  rewrite update_join_run in Hrun. unfold and_then, merge_head in Hrun.
  fold temp in Hrun.
  destruct (drive (conn s) _) as [d1 [e|r1]] eqn:H1; [done|].
  apply create_table_as_ok in H1 as (T0' & HT0' & Hfree & Hw1 & Hc1).
  rewrite HT0 in HT0'. injection HT0' as <-.
  destruct (drive d1 _) as [d2 [e|r2]] eqn:H2; [done|].
  eapply add_primary_key_ok in H2 as (Hjn & Hcols & Hw2 & Hc2);
    [|by rewrite Hw1; apply lookup_insert_eq].
  cbn [t_columns t_rows] in *. cbn beta iota zeta in Hrun.
  destruct (append_df temp false _) as [[[[]|e|n] s3] t3] eqn:H3; [|done|done].
  eapply append_df_model in H3 as (staged & Hstaged & Hall & Hw3 & Hc3 & Hf3 & Hkey);
    [|by cbn [conn]; rewrite Hw2; apply lookup_insert_eq].
  cbn [conn frame t_columns t_rows t_key with_rows app] in *.
  unfold merge_tail in Hrun. rewrite Hf3 in Hrun. cbn [frame columns] in Hrun.
  set (cols := map upper (columns (frame s))) in *.
  unfold statement_update, statement_delete_temp, statement_append_from_temp in Hrun.
  fold temp in Hrun.
  destruct (drive (conn s3) _) as [d4 [e|r4]] eqn:H4; [done|].
  apply update_join_ok in H4 as (Tg & Sc & HTg & HSc & Hboth & _ & _ & Hw4 & Hc4).
  rewrite Hw3, Hw2, Hw1 in HTg, HSc.
  rewrite !insert_insert_eq in HTg, HSc.
  rewrite lookup_insert_ne, HT0 in HTg by done. injection HTg as <-.
  rewrite lookup_insert_eq in HSc. injection HSc as <-.
  cbn [t_columns t_rows] in *.
  destruct (drive d4 _) as [d5 [e|r5]] eqn:H5; [done|].
  apply delete_matched_ok in H5 as (Tg & Sc & HTg & HSc & Hw5 & Hc5).
  rewrite Hw4 in HTg, HSc. rewrite lookup_insert_eq in HTg. injection HTg as <-.
  rewrite lookup_insert_ne in HSc by done.
  rewrite Hw3, lookup_insert_eq in HSc. injection HSc as <-.
  cbn [t_columns t_rows with_rows] in *.
  destruct (drive d5 _) as [d6 [e|r6]] eqn:H6; [done|].
  apply insert_from_temp_ok in H6 as (Tg & Sc & HTg & HSc & Hw6 & Hc6).
  rewrite Hw5 in HTg, HSc. rewrite lookup_insert_eq in HSc. injection HSc as <-.
  rewrite lookup_insert_ne in HTg by done.
  rewrite Hw4, lookup_insert_eq in HTg. injection HTg as <-.
  cbn [t_columns t_rows t_key with_rows] in *.
  assert (Hjcols : Forall (fun k => ident k ∈ t_columns T0) join_keys).
  { apply Forall_app in Hboth as [_ Hboth]. eapply Forall_impl; [exact Hboth|].
    by intros k [Hk _]. }
  rewrite (list_filter_iff _
             (fun s0 => matched (t_columns T0) (t_columns T0) join_keys (t_rows T0) s0 = false))
    in Hw6 by (intros s0; by rewrite matched_update_rows).
  fold (merged_rows T0 join_keys cols staged) in Hw6.
  exists staged, (working d6). split; [done|]. split.
  { apply merged_rows_as_claimed; try done.
    apply Forall_forall. intros c (c0 & -> & _)%list_elem_of_fmap. apply upper_idemp. }
  split; [by rewrite Hw6; apply lookup_insert_eq|]. split.
  { intros name Hn1 Hn2. rewrite Hw6, Hw5, Hw4, Hw3, Hw2, Hw1.
    by rewrite !lookup_insert_ne. }
  destruct commit; cbn [decision] in Hrun.
  - destruct (drive d6 Commit) as [d7 [e|r7]] eqn:H7; [done|].
    injection H7 as <- _.
    destruct (drive _ (Execute (DropTable temp))) as [d8 [e|r8]] eqn:H8; [done|].
    apply drop_table_ok in H8 as [Hw8 Hc8]. by injection Hrun as <- _.
  - destruct (drive d6 Rollback) as [d7 [e|r7]] eqn:H7; [done|].
    injection H7 as <- _.
    destruct (drive _ (Execute (DropTable temp))) as [d8 [e|r8]] eqn:H8; [done|].
    apply drop_table_ok in H8 as [Hw8 Hc8]. injection Hrun as <- _.
    cbn [conn working committed] in *. split; [|done].
    rewrite Hw8, Hc6, Hc5, Hc4, Hc3, Hc2, Hw2, Hw1. by rewrite insert_insert_eq.
Qed.

(** C1, amended.  On the relational model, for every merge invocation
    with the commit flag set that completes: the target table, in the
    working and in the committed state alike, is the target as it was
    before the merge with every row whose join-key values occur in a
    staged record overwritten in place in every column outside the join
    keys by that record's values, followed by the staged records whose
    join-key values matched no row; its row count is the count before plus
    the number of those records.  With the flag clear a completing merge
    rolls its statements back and leaves the target as it was. *)
Theorem update_join_merges table join_keys commit (s s' : state db) t T0 :
  working (conn s) !! ident table = Some T0 ->
  update_join table join_keys commit s = (Return tt, s', t) ->
  committed (conn s') = working (conn s') /\
  if commit then
    exists staged T1,
      staged_records (frame s) (t_columns T0) = Some staged /\
      working (conn s') !! ident table = Some T1 /\
      merge_as_claimed T0 join_keys staged T1
  else working (conn s') !! ident table = Some T0.
Proof.
  intros HT0 Hrun. pose proof (temp_table_distinct table) as Hne.
  destruct (merge_statements_model table join_keys commit s s' t T0 HT0 Hrun)
    as (staged & w & Hstaged & Hclaim & Hw & Hother & Hfinal & Hcommitted).
  split; [done|]. rewrite Hfinal. destruct commit.
  - exists staged, (with_rows T0 (merged_rows T0 join_keys (map upper (columns (frame s))) staged)).
    split; [done|]. split; [|done]. by rewrite lookup_delete_ne.
  - by rewrite lookup_delete_ne, lookup_insert_ne.
Qed.


End OracleMerge.

Lemma update_join_merges_witness :
  let s := mkState Examples.shop Examples.changes in
  let run := update_join "ITEMS" ["ID"] true s in
  Oracle.committed (conn run.1.2) = Oracle.working (conn run.1.2) /\
  exists staged T1,
    staged_records Examples.changes ["ID"; "NAME"; "VALUE"] = Some staged /\
    Oracle.working (conn run.1.2) !! "ITEMS" = Some T1 /\
    merge_as_claimed Examples.items ["ID"] staged T1.
Proof.
  apply (OracleMerge.update_join_merges "ITEMS" ["ID"] true
           (mkState Examples.shop Examples.changes)
           (update_join "ITEMS" ["ID"] true (mkState Examples.shop Examples.changes)).1.2
           (update_join "ITEMS" ["ID"] true (mkState Examples.shop Examples.changes)).2
           Examples.items).
  - vm_compute. reflexivity.
  - vm_compute. reflexivity.
Defined.

(** C1 as stated fails: with the commit flag clear the merge completes
    without any call raising, but its statements are rolled back; the
    target keeps its three rows although one staged record matched no
    key. *)
Lemma update_join_merges_counterexample :
  let s := mkState Examples.shop Examples.changes in
  let run := update_join "ITEMS" ["ID"] false s in
  run.1.1 = Return tt /\
  Forall succeeded run.2 /\
  Oracle.working (conn s) !! "ITEMS" = Some Examples.items /\
  exists staged T1,
    staged_records Examples.changes ["ID"; "NAME"; "VALUE"] = Some staged /\
    Oracle.working (conn run.1.2) !! "ITEMS" = Some T1 /\
    ~ merge_as_claimed Examples.items ["ID"] staged T1.
Proof.
  split; [by vm_compute|]. split; [vm_compute; repeat constructor|].
  split; [by vm_compute|].
  eexists _, _. split; [by vm_compute|]. split; [by vm_compute|].
  intros (_ & _ & Hlen). vm_compute in Hlen. discriminate.
Qed.

(** ** The frame effect and the statement of the update *)

Section FrameEffect.
Context {D : Type} `{Driver D}.

Lemma merge_head_frame table join_keys (s : state D) :
  frame (merge_head table join_keys s).1.2 = frame s.
Proof.
  unfold merge_head.
  destruct (drive (conn s) _) as [d1 [e|r1]]; [done|].
  by destruct (drive d1 _) as [d2 [e|r2]].
Qed.

Lemma merge_tail_frame table join_keys commit (s : state D) :
  frame (merge_tail table join_keys commit s).1.2 = frame s.
Proof.
  unfold merge_tail.
  destruct (drive (conn s) _) as [d1 [e|r1]]; [done|].
  destruct (drive d1 _) as [d2 [e|r2]]; [done|].
  destruct (drive d2 _) as [d3 [e|r3]]; [done|].
  destruct (drive d3 _) as [d4 [e|r4]]; [done|].
  by destruct (drive d4 _) as [d5 [e|r5]].
Qed.






End FrameEffect.







(** ** The spec's example, run on the model *)

(** Three rows, of which two are staged again with new values together
    with one new row: with the commit flag set the table ends with four
    rows, the two updated in place and the new one last. *)
Example merge_of_the_example :
  Oracle.t_rows <$>
    (Oracle.committed
       (conn (update_join "ITEMS" ["ID"] true
                (mkState Examples.shop Examples.changes)).1.2) !! "ITEMS") =
  Some [[Int 1; Str "a"; Int 11]; [Int 2; Str "b"; Int 21];
        [Int 3; Str "c"; Int 30]; [Int 4; Str "d"; Int 41]].
Proof. vm_compute. reflexivity. Qed.

(** The text of the statements the example sends. *)
Example update_of_the_example :
  render (statement_update "ITEMS" ["ID"] ["VALUE"; "ID"; "NAME"]) =
  nl +:+ "    UPDATE (" +:+
  nl +:+ "        SELECT " +:+
  nl +:+ "            ITEMS.VALUE AS OLD_VALUE, ITEMS.ID AS OLD_ID, ITEMS.NAME AS OLD_NAME, TEMP_ITEMS.VALUE AS NEW_VALUE, TEMP_ITEMS.ID AS NEW_ID, TEMP_ITEMS.NAME AS NEW_NAME" +:+
  nl +:+ "        FROM ITEMS" +:+
  nl +:+ "            INNER JOIN TEMP_ITEMS ON " +:+
  nl +:+ "                ITEMS.ID = TEMP_ITEMS.ID" +:+
  nl +:+ "    ) joined" +:+
  nl +:+ "    SET " +:+
  nl +:+ "        joined.OLD_VALUE = joined.NEW_VALUE, joined.OLD_NAME = joined.NEW_NAME" +:+
  nl +:+ "    ".
Proof. vm_compute. reflexivity. Qed.

Example insert_of_the_example :
  render (InsertValues "TEMP_ITEMS" [1; 2; 3]) = "INSERT INTO TEMP_ITEMS VALUES (:1, :2, :3)".
Proof. reflexivity. Qed.

(** No statement of the module other than the drop of the scratch table
    has a text that starts with DROP TABLE. *)
Lemma render_drop_table statement :
  String.prefix "DROP TABLE" (render statement) = true ->
  exists name, statement = DropTable name.
Proof. destruct statement; try discriminate. by eexists. Qed.

(** * Further properties *)

(** ** Runs stop at the first failure *)

Section Orderly.
Context {D : Type} `{Driver D}.

Lemma replay_app (d : D) t1 t2 : replay d (t1 ++ t2) = replay (replay d t1) t2.
Proof. unfold replay. by rewrite calls_app, foldl_app. Qed.

Lemma no_calls_succeeded t : calls t = [] -> Forall succeeded t.
Proof.
  induction t as [|[c r|line] t IH]; intros Hc; [constructor|done|].
  constructor; [exact I|by apply IH].
Qed.

Lemma fail_fast_quiet {A} (o : outcome A) (s : state D) t :
  calls t = [] -> fail_fast (o, s, t).
Proof.
  intros Hc. split; [intros _ _; by apply no_calls_succeeded|].
  intros pre c e post Heq. cbn in Heq. rewrite Heq, calls_app in Hc.
  by destruct (calls pre).
Qed.

Lemma orderly_quiet {A} (m : M D A) :
  (forall s, conn (m s).1.2 = conn s /\ calls (m s).2 = []) -> orderly m.
Proof.
  intros Hm s. destruct (Hm s) as [Hconn Hcalls]. split.
  - unfold replay. by rewrite Hcalls.
  - destruct (m s) as [[o s'] t]. by apply fail_fast_quiet.
Qed.

Lemma orderly_ret {A} (a : A) : orderly (ret a).
Proof. by apply orderly_quiet. Qed.
Lemma orderly_raise {A} e : orderly (@raise D A e).
Proof. by apply orderly_quiet. Qed.
Lemma orderly_sys_exit {A} n : orderly (@sys_exit D A n).
Proof. by apply orderly_quiet. Qed.
Lemma orderly_print line : orderly (@print D line).
Proof. by apply orderly_quiet. Qed.
Lemma orderly_get_columns : orderly (@get_columns D).
Proof. by apply orderly_quiet. Qed.
Lemma orderly_get_frame : orderly (@get_frame D).
Proof. by apply orderly_quiet. Qed.
Lemma orderly_set_columns cols : orderly (@set_columns D cols).
Proof. by apply orderly_quiet. Qed.
Lemma orderly_lift {A} (r : exn + A) : orderly (@lift D A r).
Proof. destruct r; by apply orderly_quiet. Qed.

Lemma orderly_db_call c : orderly (db_call c).
Proof.
  intros s. unfold db_call, replay.
  destruct (drive (conn s) c) as [d r] eqn:Hd. cbn. rewrite Hd. split; [done|].
  split.
  - intros a Ha. destruct r; [done|]. by repeat constructor.
  - intros pre c' e post Heq. cbn in Heq.
    destruct pre as [|? [|? ?]]; [|done|done]. by injection Heq as _ _ <-.
Qed.

Lemma orderly_bind {A B} (m : M D A) (f : A -> M D B) :
  orderly m -> (forall a, orderly (f a)) -> orderly (bind m f).
Proof.
  intros Hm Hf s. unfold bind. destruct (Hm s) as [Hc1 [Hr1 Hs1]].
  destruct (m s) as [[[a|e|n] s1] t1]; [|done|done].
  destruct (Hf a s1) as [Hc2 [Hr2 Hs2]].
  destruct (f a s1) as [[o2 s2] t2]. cbn [fst snd] in *.
  pose proof (Hr1 a eq_refl) as Hok1. split; [|split]; cbn [fst snd].
  - by rewrite replay_app, <- Hc1.
  - intros b ->. apply Forall_app. split; [done|by eapply Hr2].
  - intros pre c e post Heq.
    assert (Hnn : Forall (fun ev => ~ ~ succeeded ev) t1)
      by (eapply Forall_impl; [exact Hok1|]; by intros ev Hev Hn).
    destruct (split_after (fun ev => ~ succeeded ev) t1 t2 pre post
                (Call c (inl e)) Hnn (fun Hc => Hc) Heq) as (pre' & -> & Heq').
    apply Hs2 in Heq' as [Hpre Hpost]. split; [|done].
    apply Forall_app. by split.
Qed.

Lemma orderly_try_except {A} (m : M D A) (handler : exn -> M D A) :
  orderly m ->
  (forall e s, conn (handler e s).1.2 = conn s /\ calls (handler e s).2 = [] /\
               forall a, (handler e s).1.1 <> Return a) ->
  orderly (try_except m handler).
Proof.
  intros Hm Hh s. unfold try_except. destruct (Hm s) as [Hc1 [Hr1 Hs1]].
  destruct (m s) as [[[a|e|n] s1] t1]; [done| |done].
  destruct (Hh e s1) as (Hc2 & Hq & Hnr).
  destruct (handler e s1) as [[o2 s2] t2]. cbn [fst snd] in *.
  split; [|split]; cbn [fst snd].
  - rewrite replay_app, <- Hc1. unfold replay at 1. by rewrite Hq.
  - intros a ->. by destruct (Hnr a).
  - intros pre c e' post Heq.
    apply app_eq_inv in Heq as [(k & Ht1 & Hk)|(k & Hpre & Ht2)].
    + destruct k as [|x k]; cbn in Hk.
      * rewrite <- Hk in Hq. done.
      * injection Hk as <- ->. apply Hs1 in Ht1 as [Hpre Hpost].
        split; [done|]. by rewrite calls_app, Hpost, Hq.
    + rewrite Ht2, calls_app in Hq. by destruct (calls k).
Qed.

Lemma orderly_print_rows rows : orderly (print_rows rows).
Proof.
  apply orderly_quiet. intros s. rewrite print_rows_run. cbn. split; [done|].
  by induction rows.
Qed.

Lemma calls_diagnostics stmt data e : calls (diagnostics stmt data e) = [].
Proof.
  unfold diagnostics. rewrite !calls_app.
  assert (Hrows : forall rows : list record,
            calls (map (fun row => Print [Txt "    "; Row row]) rows) = [])
    by (by induction rows).
  by rewrite !Hrows.
Qed.

Lemma orderly_commit_transactions commit : orderly (commit_transactions commit).
Proof.
  unfold commit_transactions. apply orderly_bind; [|intros _; apply orderly_print].
  destruct commit; apply orderly_db_call.
Qed.

Lemma orderly_format_data table flag : orderly (format_data table flag).
Proof.
  unfold format_data.
  apply orderly_bind; [apply orderly_db_call|intros r].
  apply orderly_bind; [apply orderly_get_columns|intros old].
  apply orderly_bind; [apply orderly_set_columns|intros _].
  apply orderly_bind; [apply orderly_get_columns|intros cols].
  apply orderly_bind; [apply orderly_lift|intros order].
  apply orderly_bind; [apply orderly_get_frame|intros df].
  apply orderly_bind; [apply orderly_lift|intros df1].
  apply orderly_bind; [apply orderly_lift|intros data].
  destruct flag; apply orderly_ret.
Qed.

Lemma orderly_truncate_data table : orderly (truncate_data table).
Proof.
  unfold truncate_data.
  apply orderly_bind; [apply orderly_db_call|intros r; apply orderly_print].
Qed.

Lemma orderly_append_batch stmt table start_pos data :
  orderly (append_batch stmt table start_pos data).
Proof.
  unfold append_batch. apply orderly_bind; [apply orderly_print|intros _].
  apply orderly_try_except.
  - apply orderly_bind; [apply orderly_db_call|intros r; apply orderly_print].
  - intros e s. rewrite print_data_error_run. cbn [fst snd].
    split; [done|]. split; [apply calls_diagnostics|done].
Qed.

Lemma orderly_append_loop B stmt table all_data :
  forall n start_pos, length all_data - start_pos <= n ->
    orderly (append_loop B stmt table all_data start_pos).
Proof.
  induction n as [|n IH]; intros start_pos Hn; rewrite append_loop_step;
    destruct (slice all_data start_pos (start_pos + B)) as [|r batch] eqn:Hslice;
    try apply orderly_ret.
  - apply (f_equal length) in Hslice. unfold slice in Hslice.
    rewrite length_take, length_drop in Hslice. simpl in Hslice. lia.
  - assert (HB : 0 < B /\ start_pos < length all_data).
    { apply (f_equal length) in Hslice. unfold slice in Hslice.
      rewrite length_take, length_drop in Hslice. simpl in Hslice. lia. }
    apply orderly_bind; [apply orderly_append_batch|intros _]. apply IH. lia.
Qed.

Lemma orderly_append_data_batched B all_data table truncate :
  orderly (append_data_batched B all_data table truncate).
Proof.
  unfold append_data_batched.
  apply orderly_bind; [apply orderly_print|intros _].
  apply orderly_bind; [apply orderly_lift|intros first].
  apply orderly_bind.
  - destruct truncate; [apply orderly_truncate_data|apply orderly_ret].
  - intros _. by apply (orderly_append_loop _ _ _ _ (length all_data)); lia.
Qed.

Lemma orderly_append_df table truncate : orderly (append_df table truncate).
Proof.
  unfold append_df. apply orderly_bind; [apply orderly_format_data|intros a].
  apply orderly_append_data_batched.
Qed.

Lemma orderly_delete_data np_array table column :
  orderly (delete_data np_array table column).
Proof.
  unfold delete_data. destruct (negb _); [|apply orderly_print].
  apply orderly_try_except.
  - apply orderly_bind; [apply orderly_db_call|intros r; apply orderly_print].
  - intros e s. cbn. done.
Qed.

Lemma orderly_update_join table join_keys commit :
  orderly (update_join table join_keys commit).
Proof.
  unfold update_join.
  repeat first
    [ apply orderly_print | apply orderly_db_call | apply orderly_ret
    | apply orderly_get_columns | apply orderly_append_df
    | apply orderly_commit_transactions
    | apply orderly_bind; [|intros ?] ].
Qed.

(** X4.  No function of the module swallows a driver error or carries on
    after one.  In every run of [update_join], [append_df], [append_data],
    [delete_data], [format_data], [truncate_data] and
    [commit_transactions]: a call that raised is the last call made, every
    call before it succeeded, and the function returned only if no call
    raised. *)
Theorem driver_errors_end_the_run :
  (forall table join_keys commit (s : state D),
     fail_fast (update_join table join_keys commit s)) /\
  (forall table truncate (s : state D), fail_fast (append_df table truncate s)) /\
  (forall all_data table truncate (s : state D),
     fail_fast (append_data all_data table truncate s)) /\
  (forall np_array table column (s : state D),
     fail_fast (delete_data np_array table column s)) /\
  (forall table return_col_names (s : state D),
     fail_fast (format_data table return_col_names s)) /\
  (forall table (s : state D), fail_fast (truncate_data table s)) /\
  (forall commit (s : state D), fail_fast (commit_transactions commit s)).
Proof.
  split; [|split; [|split; [|split; [|split; [|split]]]]]; intros.
  - apply orderly_update_join.
  - apply orderly_append_df.
  - apply orderly_append_data_batched.
  - apply orderly_delete_data.
  - apply orderly_format_data.
  - apply orderly_truncate_data.
  - apply orderly_commit_transactions.
Qed.

End Orderly.

Section AppendCalls.
Context {D : Type} `{Driver D}.

Lemma insert_batches_app t1 t2 :
  insert_batches (t1 ++ t2) = insert_batches t1 ++ insert_batches t2.
Proof. apply omap_app. Qed.

Lemma insert_batches_diagnostics stmt data e :
  insert_batches (diagnostics stmt data e) = [].
Proof.
  unfold diagnostics. rewrite !insert_batches_app.
  assert (Hrows : forall rows : list record,
            insert_batches (map (fun row => Print [Txt "    "; Row row]) rows) = [])
    by (by induction rows).
  by rewrite !Hrows.
Qed.

(** The calls of the loop are its insert executions, all of one
    statement; batch [i] holds the rows from [start_pos + i * B] on, [B] of
    them or as many as are left, and at least one. *)
Lemma append_loop_calls B tb l table all_data :
  forall n start_pos (s : state D),
    length all_data - start_pos <= n ->
    let t := (append_loop B (InsertValues tb l) table all_data start_pos s).2 in
    calls t = map (ExecuteMany (InsertValues tb l)) (insert_batches t) /\
    forall i b, insert_batches t !! i = Some b ->
      b = slice all_data (start_pos + i * B) (start_pos + i * B + B) /\ b <> [].
Proof.
  induction n as [|n IH]; intros start_pos s Hn; rewrite append_loop_step;
    destruct (slice all_data start_pos (start_pos + B)) as [|r batch] eqn:Hslice;
    try (split; [done|]; by intros i b Hi).
  - apply (f_equal length) in Hslice. unfold slice in Hslice.
    rewrite length_take, length_drop in Hslice. simpl in Hslice. lia.
  - assert (HB : 0 < B /\ start_pos < length all_data).
    { apply (f_equal length) in Hslice. unfold slice in Hslice.
      rewrite length_take, length_drop in Hslice. simpl in Hslice. lia. }
    unfold bind. rewrite append_batch_run.
    destruct (drive (conn s) (ExecuteMany (InsertValues tb l) (r :: batch))) as [d [e|v]].
    + cbn zeta. cbn [snd].
      change ([?a; ?b] ++ ?c) with ([a] ++ [b] ++ c).
      rewrite !calls_app, !insert_batches_app, calls_diagnostics,
        insert_batches_diagnostics.
      split; [done|]. intros [|i] b Hi; [|done]. injection Hi as <-.
      by rewrite Nat.add_0_r.
    + destruct (IH (start_pos + B) (mkState d (frame s))) as [Hcalls Hrows]; [lia|].
      destruct (append_loop B (InsertValues tb l) table all_data (start_pos + B)
                  (mkState d (frame s))) as [[o2 s2] t2].
      cbn zeta in *. cbn [snd] in *.
      change ([?a; ?b; ?c] ++ ?u) with ([a] ++ [b] ++ [c] ++ u).
      rewrite !calls_app, !insert_batches_app. cbn [calls insert_batches omap list_omap app].
      fold (calls t2). fold (insert_batches t2). rewrite Hcalls.
      split; [done|]. intros [|i] b Hi.
      * injection Hi as <-. by rewrite Nat.add_0_r.
      * apply Hrows in Hi as [-> Hne]. split; [|done]. f_equal; lia.
Qed.

(** X1.  The calls of [append_data] on a non-empty input, in every run:
    with [truncate] set the first call is the one DELETE FROM the table,
    made once; every other call is an insert execution, and all of them
    carry the same statement, whose placeholders are numbered from 1 to
    the length of the first record.  So [append_data] never commits, never
    rolls back and issues no other statement. *)
Theorem append_data_calls first rest table truncate (s : state D) :
  let t := (append_data (first :: rest) table truncate s).2 in
  calls t =
    (if truncate then [Execute (DeleteAll table)] else []) ++
    map (ExecuteMany (InsertValues table (seq 1 (length first)))) (insert_batches t).
Proof.
  unfold append_data, append_data_batched, bind, print, lift, ret.
  cbn [lookup list_lookup].
  replace (map (fun x => x + 1) (seq 0 (length first))) with (seq 1 (length first))
    by (rewrite <- (fmap_S_seq 0); apply list_fmap_ext; intros; lia).
  set (stmt := InsertValues table _).
  destruct truncate.
  - rewrite truncate_data_run.
    destruct (drive (conn s) (Execute (DeleteAll table))) as [d [e|r]]; [done|].
    destruct (append_loop_calls BATCH_SIZE table (seq 1 (length first)) table
                (first :: rest) (length (first :: rest)) 0 (mkState d (frame s)))
      as [Hcalls _]; [lia|]. fold stmt in Hcalls.
    destruct (append_loop _ _ _ _ _ _) as [[o s'] t]. cbn zeta in *. cbn [snd] in *.
    cbn. fold (calls t). fold (insert_batches t). by rewrite Hcalls.
  - destruct (append_loop_calls BATCH_SIZE table (seq 1 (length first)) table
                (first :: rest) (length (first :: rest)) 0 s)
      as [Hcalls _]; [lia|]. fold stmt in Hcalls.
    destruct (append_loop _ _ _ _ _ _) as [[o s'] t]. cbn zeta in *. cbn [snd] in *.
    cbn. fold (calls t). fold (insert_batches t). by rewrite Hcalls.
Qed.

(** X3.  In every run of the batch append, whatever fails, the i-th
    insert execution carries exactly the rows [all_data[i*B : i*B + B]]:
    the batches are consecutive slices of the input, of B rows each but
    possibly the last, and an empty batch is never sent.  [append_data]
    is the case [B = BATCH_SIZE]. *)
Theorem append_data_batch_rows B all_data table truncate (s : state D) i b :
  insert_batches (append_data_batched B all_data table truncate s).2 !! i = Some b ->
  b = slice all_data (i * B) (i * B + B) /\ b <> [].
Proof.
  unfold append_data_batched, bind, print, lift.
  destruct (all_data !! 0) as [first|]; unfold raise, ret; [|done].
  set (stmt := InsertValues table _).
  destruct truncate.
  - rewrite truncate_data_run.
    destruct (drive (conn s) (Execute (DeleteAll table))) as [d [e|r]]; [done|].
    destruct (append_loop_calls B table (map (fun x => x + 1) (seq 0 (length first))) table
                all_data (length all_data) 0 (mkState d (frame s)))
      as [_ Hrows]; [lia|]. fold stmt in Hrows.
    destruct (append_loop _ _ _ _ _ _) as [[o s'] t]. cbn zeta in *. cbn [snd] in *.
    intros Hi. by apply Hrows in Hi.
  - destruct (append_loop_calls B table (map (fun x => x + 1) (seq 0 (length first))) table
                all_data (length all_data) 0 s)
      as [_ Hrows]; [lia|]. fold stmt in Hrows.
    destruct (append_loop _ _ _ _ _ _) as [[o s'] t]. cbn zeta in *. cbn [snd] in *.
    intros Hi. by apply Hrows in Hi.
Qed.

(** X2.  When the DELETE of a truncate raises, [append_data] ends by
    raising that exception to its caller right after its first line: no
    insert is attempted, no diagnostics are printed, and the process is
    not left, unlike what a failing insert does. *)
Theorem append_data_truncate_raises first rest table (s : state D) d e :
  drive (conn s) (Execute (DeleteAll table)) = (d, inl e) ->
  append_data (first :: rest) table true s =
  (Raise e, mkState d (frame s),
   [Print [Txt ("Appending to " +:+ dq +:+ table +:+ dq)];
    Call (Execute (DeleteAll table)) (inl e)]).
Proof.
  intros Hdrive. unfold append_data, append_data_batched, bind, print, lift, ret.
  cbn [lookup list_lookup]. by rewrite truncate_data_run, Hdrive.
Qed.

End AppendCalls.

Lemma append_data_batch_rows_witness :
  [[Int 3]; [Int 4]] = slice Examples.five_rows (1 * 2) (1 * 2 + 2) /\
  [[Int 3]; [Int 4]] <> [].
Proof.
  apply (append_data_batch_rows 2 Examples.five_rows "T" true Examples.quiet 1).
  vm_compute. reflexivity.
Defined.

Lemma replace_null_normalised c : normalised (replace_null c).
Proof. by destruct c as [| |[|a s]|z]. Qed.


Section Reconciliation.
Context {D : Type} `{Driver D}.

(** X6.  No value of the records [format_data] returns is NaN or the empty
    string: both have been replaced by None. *)
Theorem format_data_normalises table return_col_names (s : state D) data names :
  (format_data table return_col_names s).1.1 = Return (data, names) ->
  Forall (Forall normalised) data.
Proof.
  rewrite format_data_run.
  destruct (drive (conn s) (Execute (SelectFirstRow table))) as [d [e|r]]; [done|].
  cbn zeta. destruct (oracle_order_loop _ _ _ _) as [e|order]; [done|].
  destruct (reindex _ _) as [e|df1]; [done|].
  destruct (to_records _) as [e|data0] eqn:Hrec; [done|]. cbn [fst].
  apply to_records_inv in Hrec as (-> & _). intros [= <- _].
  unfold replace_nulls. cbn [values].
  apply Forall_fmap, Forall_true. intros row. apply Forall_fmap, Forall_true.
  intros c. apply replace_null_normalised.
Qed.


(** X8.  Reconciling twice gives the same.  When the schema query answers
    with the same description both times, a second call of [format_data]
    on the frame the first call left ends as the first did, with the same
    records or the same exception, and leaves the same frame. *)
Theorem format_data_again table return_col_names (s : state D) d r d' r' :
  drive (conn s) (Execute (SelectFirstRow table)) = (d, inr r) ->
  drive d (Execute (SelectFirstRow table)) = (d', inr r') ->
  description r' = description r ->
  let first := format_data table return_col_names s in
  let second := format_data table return_col_names first.1.2 in
  second.1.1 = first.1.1 /\ frame second.1.2 = frame first.1.2.
Proof.
  intros H1 H2 Hdesc. cbn zeta. rewrite (format_data_run _ _ s), H1. cbn zeta.
  set (df := mkDataFrame (map upper (columns (frame s))) (values (frame s))).
  assert (Hdf : mkDataFrame (map upper (columns df)) (values df) = df).
  { unfold df. cbn [columns values]. f_equal. rewrite <- list_fmap_compose.
    apply list_fmap_ext. intros _ c _. apply upper_idemp. }
  assert (Hsecond : forall o : outcome (list record * option (list string)),
    (match oracle_order_loop table (columns df) (description r) [] with
     | inl e => (Raise e, mkState d df, [Call (Execute (SelectFirstRow table)) (inr r)])
     | inr oracle_order =>
         match reindex df oracle_order with
         | inl e => (Raise e, mkState d df, [Call (Execute (SelectFirstRow table)) (inr r)])
         | inr df1 =>
             match to_records (replace_nulls df1) with
             | inl e =>
                 (Raise e, mkState d df, [Call (Execute (SelectFirstRow table)) (inr r)])
             | inr data =>
                 (Return (data, if return_col_names then Some oracle_order else None),
                  mkState d df, [Call (Execute (SelectFirstRow table)) (inr r)])
             end
         end
     end).1.1 = o ->
    (format_data table return_col_names (mkState d df)).1.1 = o /\
    frame (format_data table return_col_names (mkState d df)).1.2 = df).
  { intros o <-. rewrite format_data_run. cbn [conn frame]. rewrite H2. cbn zeta.
    rewrite Hdf, Hdesc.
    destruct (oracle_order_loop _ _ _ _) as [e|order]; [done|].
    destruct (reindex _ _) as [e|df1]; [done|]. by destruct (to_records _). }
  destruct (oracle_order_loop _ _ _ _) as [e|order] eqn:Horder.
  - apply (Hsecond (Raise e)). done.
  - destruct (reindex df order) as [e|df1] eqn:Hre.
    + apply (Hsecond (Raise e)). done.
    + destruct (to_records (replace_nulls df1)) as [e|data] eqn:Hrec.
      * apply (Hsecond (Raise e)). done.
      * cbn [fst snd]. apply Hsecond. done.
Qed.

(** X9.  A returning [append_df] on a rectangular frame with distinct
    upper-cased labels has first asked for the description of the table
    and has then sent, batch after batch, exactly the rows of the frame
    reconciled with that description, in the frame's order. *)
Theorem append_df_sends_reconciled table truncate (s s' : state D) t :
  well_formed (frame s) -> NoDup (map upper (columns (frame s))) ->
  append_df table truncate s = (Return tt, s', t) ->
  exists r t', t = Call (Execute (SelectFirstRow table)) (inr r) :: t' /\
    concat (insert_batches t) = reconciled (frame s) (description r).
Proof.
  intros Hwf Hnd Hrun.
  destruct (orderly_append_df table truncate s) as [_ [Hok _]].
  rewrite Hrun in Hok. specialize (Hok tt eq_refl). cbn [snd] in Hok.
  revert Hrun. unfold append_df, bind. rewrite format_data_run.
  destruct (drive (conn s) (Execute (SelectFirstRow table))) as [d [e|r]]; [done|].
  cbn zeta. destruct (oracle_order_loop _ _ _ _) as [e|order] eqn:Horder; [done|].
  apply oracle_order_loop_inv in Horder as [-> _]. cbn [app columns].
  destruct (reindex _ _) as [e|df1] eqn:Hre; [done|].
  destruct (to_records _) as [e|data] eqn:Hrec; [done|].
  apply to_records_inv in Hrec as (-> & _).
  rewrite (reindex_values _ _ _ Hwf Hnd Hre). cbn [fst].
  set (all_data := reconciled (frame s) (description r)).
  unfold append_data, append_data_batched, bind, print, lift.
  destruct (all_data !! 0) as [first|] eqn:Hfirst; unfold raise, ret; [|done].
  set (stmt := InsertValues table _).
  destruct truncate.
  - rewrite truncate_data_run. cbn [conn frame].
    destruct (drive d (Execute (DeleteAll table))) as [d1 [e|r1]]; [done|].
    destruct (append_loop _ _ _ _ _ _) as [[o3 s3] t3] eqn:Hloop.
    intros [= -> <- <-]. exists r. eexists. split; [reflexivity|].
    apply (Forall_app _ [_; _; _; _]) in Hok as [_ Hok].
    destruct (append_loop_batches BATCH_SIZE table _ table all_data
                OracleMerge.BATCH_SIZE_pos (length all_data) 0 _ _ _ _
                ltac:(lia) Hloop Hok) as (_ & _ & Hcat & _).
    cbn. fold (insert_batches t3). by rewrite Hcat, drop_0.
  - destruct (append_loop _ _ _ _ _ _) as [[o3 s3] t3] eqn:Hloop.
    intros [= -> <- <-]. exists r. eexists. split; [reflexivity|].
    apply (Forall_app _ [_; _]) in Hok as [_ Hok].
    destruct (append_loop_batches BATCH_SIZE table _ table all_data
                OracleMerge.BATCH_SIZE_pos (length all_data) 0 _ _ _ _
                ltac:(lia) Hloop Hok) as (_ & _ & Hcat & _).
    cbn. fold (insert_batches t3). by rewrite Hcat, drop_0.
Qed.

End Reconciliation.

Section EmptyFrame.
Context {D : Type} `{Driver D}.

Lemma reindex_no_rows df cols df1 :
  values df = [] -> reindex df cols = inr df1 -> values df1 = [].
Proof.
  intros Hnil. unfold reindex. destruct (decide _); [by intros [= <-]|].
  destruct (decide _); [|done]. intros [= <-]. cbn. by rewrite Hnil.
Qed.

Lemma append_df_no_rows table truncate (s : state D) :
  values (frame s) = [] ->
  (exists e, (append_df table truncate s).1.1 = Raise e) /\
  calls (append_df table truncate s).2 = [Execute (SelectFirstRow table)].
Proof.
  intros Hnil. unfold append_df, bind. rewrite format_data_run.
  destruct (drive (conn s) (Execute (SelectFirstRow table))) as [d [e|r]];
    [by split; [exists e|]|].
  cbn zeta. destruct (oracle_order_loop _ _ _ _) as [e|order]; [by split; [exists e|]|].
  destruct (reindex _ _) as [e|df1] eqn:Hre; [by split; [exists e|]|].
  apply reindex_no_rows in Hre; [|done].
  destruct (to_records _) as [e|data] eqn:Hrec; [by split; [exists e|]|].
  apply to_records_inv in Hrec as (-> & _). cbn [fst].
  unfold replace_nulls. cbn [values]. rewrite Hre. cbn.
  split; [by eexists|done].
Qed.

(** X10.  A merge of a frame without rows never completes: it ends by
    raising, after at most the CREATE, the ALTER and the schema query on
    the scratch table.  No insert, no UPDATE, no commit or rollback and no
    DROP is issued, so a scratch table that was created stays. *)
Theorem update_join_no_rows table join_keys commit (s : state D) :
  values (frame s) = [] ->
  (exists e, (update_join table join_keys commit s).1.1 = Raise e) /\
  calls (update_join table join_keys commit s).2 `prefix_of`
    [Execute (statement_create table); Execute (statement_add_pk table join_keys);
     Execute (SelectFirstRow (temp_table table))].
Proof.
  intros Hnil. rewrite update_join_run. unfold and_then.
  pose proof (merge_head_frame table join_keys s) as Hframe.
  unfold merge_head in *. unfold statement_create, statement_add_pk.
  destruct (drive (conn s) _) as [d1 [e|r1]].
  { split; [by exists e|]. by eexists. }
  destruct (drive d1 _) as [d2 [e|r2]].
  { split; [by exists e|]. by eexists. }
  cbn [fst snd] in Hframe. cbn beta iota zeta.
  destruct (append_df_no_rows (temp_table table) false (mkState d2 (frame s)) Hnil)
    as [[e He] Hcalls].
  destruct (append_df _ false _) as [[o3 s3] t3]. cbn [fst snd] in *. subst o3.
  cbn beta iota zeta. cbn [fst snd].
  split; [by exists e|]. rewrite calls_app, Hcalls. by exists [].
Qed.

End EmptyFrame.

(** ** Batch append on the relational model *)

Module OracleAppend.
Import Oracle OracleMerge.










(** Calls of the staging kind leave the committed tables alone. *)
Lemma staging_committed d c r :
  staging (Call c r) -> committed (run d c).1 = committed d.
Proof.
  destruct c as [[]|[] data| |]; try done; intros _; cbn [run];
    unfold exec_select_first_row, exec_delete_all, exec_insert_values, store, answer, refuse;
    by repeat case_match.
Qed.

End OracleAppend.

Section Replay.
Context {D : Type} `{Driver D}.

Lemma replay_invariant (I : D -> Prop) t :
  (forall c r d, Call c r ∈ t -> I d -> I (drive d c).1) ->
  forall d, I d -> I (replay d t).
Proof.
  unfold replay. induction t as [|[c r|line] t IH]; intros Hstep d Hd; [done| |].
  - cbn. apply IH.
    + intros c' r' d' Hin. apply (Hstep c' r'). by right.
    + apply (Hstep c r); [by left|done].
  - cbn. apply IH; [|done]. intros c' r' d' Hin. apply (Hstep c' r'). by right.
Qed.
End Replay.

(** X13.  On the relational model, a returning [append_data], with or
    without truncate, followed by [commit_transactions] with the flag
    clear leaves every table as of the last commit: the DELETE of the
    truncate and the inserts are undone together. *)
Theorem append_data_rolled_back all_data table truncate (s s1 s2 : state Oracle.db) t1 o t2 :
  append_data all_data table truncate s = (Return tt, s1, t1) ->
  commit_transactions false s1 = (o, s2, t2) ->
  o = Return tt /\
  Oracle.working (conn s2) = Oracle.committed (conn s) /\
  Oracle.committed (conn s2) = Oracle.committed (conn s).
Proof.
  intros Happend Hroll.
  assert (Hc : Oracle.committed (conn s1) = Oracle.committed (conn s)).
  { destruct (orderly_append_data_batched BATCH_SIZE all_data table truncate s) as [Hconn _].
    destruct (append_data_staging all_data table truncate s) as [Hst _].
    unfold append_data in *. rewrite Happend in Hconn, Hst. cbn [fst snd] in *.
    rewrite Hconn.
    apply (replay_invariant (fun d => Oracle.committed d = Oracle.committed (conn s))); [|done].
    intros c r d Hin Hd. rewrite Forall_forall in Hst. apply Hst in Hin.
    rewrite <- Hd. by apply (OracleAppend.staging_committed d c r). }
  revert Hroll. unfold commit_transactions, bind, db_call, print. cbn.
  intros [= <- <- _]. cbn. by rewrite Hc.
Qed.

Module OracleFootprint.
Import Oracle OracleMerge OracleAppend.

(** The scratch table is free when the merge starts. *)
Lemma update_join_scratch_free table join_keys commit (s s' : state db) t :
  update_join table join_keys commit s = (Return tt, s', t) ->
  working (conn s) !! ident (temp_table table) = None.
Proof.
  rewrite update_join_run. unfold and_then, merge_head.
  destruct (drive (conn s) _) as [d1 [e|r1]] eqn:H1; [done|].
  by apply create_table_as_ok in H1 as (T0 & _ & Hfree & _).
Qed.

Lemma merge_footprint table join_keys commit (s s' : state db) t T0 :
  working (conn s) !! ident table = Some T0 ->
  update_join table join_keys commit s = (Return tt, s', t) ->
  working (conn s') !! ident (temp_table table) = None /\
  forall name, name <> ident table -> working (conn s') !! name = working (conn s) !! name.
Proof.
  intros HT0 Hrun. pose proof (temp_table_distinct table) as Hne.
  pose proof (update_join_scratch_free _ _ _ _ _ _ Hrun) as Hfree.
  destruct (merge_statements_model table join_keys commit s s' t T0 HT0 Hrun)
    as (staged & w & _ & _ & _ & Hother & Hfinal & _).
  rewrite Hfinal. split; [apply lookup_delete_eq|].
  intros name Hname. destruct (decide (name = ident (temp_table table))) as [->|Htemp].
  - by rewrite lookup_delete_eq.
  - rewrite lookup_delete_ne by done. destruct commit.
    + by apply Hother.
    + by rewrite lookup_insert_ne.
Qed.

(** X14.  On the relational model, a merge that completes, with either
    flag, leaves no scratch table behind and leaves every table other
    than the target as the caller's transaction had it. *)
Theorem update_join_footprint table join_keys commit (s s' : state db) t T0 :
  working (conn s) !! ident table = Some T0 ->
  update_join table join_keys commit s = (Return tt, s', t) ->
  working (conn s') !! ident (temp_table table) = None /\
  forall name, name <> ident table -> working (conn s') !! name = working (conn s) !! name.
Proof. apply merge_footprint. Qed.

(** X15.  On the relational model, a merge that completes with the commit
    flag clear changes no table, but it commits whatever the caller had
    pending when it was called: afterwards the committed tables and the
    tables of the running transaction are both the caller's tables as
    they were just before the call.  (The CREATE TABLE of the first step
    commits the running transaction.) *)
Theorem update_join_rollback_commits table join_keys (s s' : state db) t T0 :
  working (conn s) !! ident table = Some T0 ->
  update_join table join_keys false s = (Return tt, s', t) ->
  working (conn s') = working (conn s) /\ committed (conn s') = working (conn s).
Proof.
  intros HT0 Hrun.
  pose proof (update_join_scratch_free _ _ _ _ _ _ Hrun) as Hfree.
  destruct (merge_statements_model table join_keys false s s' t T0 HT0 Hrun)
    as (staged & w & _ & _ & _ & _ & Hfinal & Hcommitted).
  rewrite Hcommitted, Hfinal.
  by rewrite delete_insert_eq, delete_id.
Qed.

(** Every call but a DROP TABLE keeps the tables there are. *)
Lemma run_keeps_table d c name :
  (forall dropped, c <> Execute (DropTable dropped)) ->
  table_exists d name -> table_exists (run d c).1 name.
Proof.
  intros Hc [Hcom Hwork]. unfold table_exists.
  assert (Hins : forall n' Tg (m : gmap string table),
            is_Some (m !! ident name) -> is_Some (<[n' := Tg]> m !! ident name)).
  { intros n' Tg m Hm. rewrite lookup_insert_is_Some.
    destruct (decide (n' = ident name)); [by left|by right]. }
  destruct c as [[]|[] data| |]; cbn [run];
    unfold exec_create_table_as, exec_add_primary_key, exec_select_first_row,
      exec_delete_all, exec_insert_values, exec_update_join, exec_delete_matched,
      exec_insert_from_temp, exec_delete_where, store, answer, refuse, implicit_commit;
    cbn [working committed];
    try (by destruct (Hc _ eq_refl)); repeat case_match; cbn [fst working committed];
    split; auto.
Qed.

Lemma drop_table_succeeds d name :
  table_exists d name -> exists r, (run d (Execute (DropTable name))).2 = inr r.
Proof.
  intros [_ [Tg HTg]]. cbn [run]. unfold exec_drop_table, implicit_commit, answer.
  cbn [working]. rewrite HTg. by eexists.
Qed.

Lemma decision_not_drop commit dropped : decision commit <> Execute (DropTable dropped).
Proof. by destruct commit. Qed.

(** X16.  On the relational model, a merge that does not complete once its
    CREATE has succeeded leaves the scratch table in the database,
    committed: nothing drops it, whichever step failed. *)
Theorem update_join_leaves_scratch table join_keys commit (s : state db) d1 r1 :
  run (conn s) (Execute (statement_create table)) = (d1, inr r1) ->
  (update_join table join_keys commit s).1.1 <> Return tt ->
  table_exists (conn (update_join table join_keys commit s).1.2) (temp_table table).
Proof.
  intros Hcreate. rewrite update_join_run. unfold and_then, merge_head.
  change (drive (conn s) (Execute (CreateTableAs (temp_table table) table)))
    with (run (conn s) (Execute (statement_create table))). rewrite Hcreate.
  assert (J1 : table_exists d1 (temp_table table)).
  { apply create_table_as_ok in Hcreate as (T0 & _ & _ & Hw & Hc). unfold table_exists.
    rewrite Hc, Hw, lookup_insert_eq. by split. }
  pose proof (fun d c Hc => run_keeps_table d c (temp_table table) Hc) as Hstep.
  assert (J2 := Hstep d1 (Execute (AddPrimaryKey (temp_table table) join_keys))
                  ltac:(done) J1).
  change (run d1 ?c) with (drive d1 c) in J2.
  destruct (drive d1 _) as [d2 [e|r2]]; [done|]. cbn [fst] in J2.
  destruct (orderly_append_df (temp_table table) false (mkState d2 (frame s))) as [Hconn _].
  pose proof (append_df_staging (temp_table table) false (mkState d2 (frame s))) as Hst.
  assert (J3 : table_exists (conn (append_df (temp_table table) false
                                     (mkState d2 (frame s))).1.2) (temp_table table)).
  { rewrite Hconn. apply replay_invariant; [|done].
    intros c r d Hin. rewrite Forall_forall in Hst. apply Hst in Hin.
    apply Hstep. intros dropped ->. done. }
  destruct (append_df _ false _) as [[[[]|e|n] s3] t3]; [|done|done].
  cbn [fst snd] in J3. cbn beta iota zeta. unfold merge_tail.
  assert (J4 := Hstep (conn s3) (Execute (statement_update table join_keys (columns (frame s3))))
                  ltac:(done) J3).
  change (run (conn s3) ?c) with (drive (conn s3) c) in J4.
  destruct (drive (conn s3) _) as [d4 [e|r4]]; [done|]. cbn [fst] in J4.
  assert (J5 := Hstep d4 (Execute (statement_delete_temp table join_keys)) ltac:(done) J4).
  change (run d4 ?c) with (drive d4 c) in J5.
  destruct (drive d4 _) as [d5 [e|r5]]; [done|]. cbn [fst] in J5.
  assert (J6 := Hstep d5 (Execute (statement_append_from_temp table)) ltac:(done) J5).
  change (run d5 ?c) with (drive d5 c) in J6.
  destruct (drive d5 _) as [d6 [e|r6]]; [done|]. cbn [fst] in J6.
  assert (J7 := Hstep d6 (decision commit) (decision_not_drop commit) J6).
  change (run d6 ?c) with (drive d6 c) in J7.
  destruct (drive d6 _) as [d7 [e|r7]]; [done|]. cbn [fst] in J7.
  destruct (drop_table_succeeds d7 _ J7) as [r8 H8].
  change (run d7 ?c) with (drive d7 c) in H8.
  destruct (drive d7 _) as [d8 [e|r8']]; [done|]. intros Hret. by destruct Hret.
Qed.


End OracleFootprint.

Module OracleRequirements.
Import Oracle OracleMerge OracleAppend OracleFootprint.

(** A returning run of the insert loop has sent only rows with one value
    per placeholder. *)
Lemma append_loop_widths B tb l table all_data :
  0 < B ->
  forall n start_pos (s s' : state db) t Sc,
    length all_data - start_pos <= n ->
    working (conn s) !! ident tb = Some Sc ->
    append_loop B (InsertValues tb l) table all_data start_pos s = (Return tt, s', t) ->
    Forall (fun r => length r = length l) (drop start_pos all_data).
Proof.
  intros HB.
  induction n as [|n IH]; intros start_pos s s' t Sc Hn HSc Hrun;
    rewrite append_loop_step in Hrun;
    destruct (slice all_data start_pos (start_pos + B)) as [|r batch] eqn:Hslice.
  1,3: apply slice_nil_iff in Hslice as [->|Hge]; [lia|]; by rewrite drop_ge.
  - apply (f_equal length) in Hslice. unfold slice in Hslice.
    rewrite length_take, length_drop in Hslice. simpl in Hslice. lia.
  - assert (Hbatch : r :: batch = take B (drop start_pos all_data)).
    { rewrite <- Hslice. unfold slice. f_equal. lia. }
    assert (Hdrop : drop start_pos all_data = (r :: batch) ++ drop (start_pos + B) all_data).
    { rewrite Hbatch, <- drop_drop. symmetry. apply take_drop. }
    unfold bind in Hrun. rewrite append_batch_run in Hrun.
    destruct (drive (conn s) (ExecuteMany (InsertValues tb l) (r :: batch)))
      as [d [e|v]] eqn:Hdrive; [done|].
    assert (Hwidth : Forall (fun r0 => length r0 = length l) (r :: batch)).
    { revert Hdrive. change (drive (conn s) ?c) with (run (conn s) c). cbn [run].
      unfold exec_insert_values, refuse. rewrite HSc.
      case_bool_decide; [done|]. destruct (Nat.eqb _ _); [|done]. cbn [negb].
      match goal with |- context [forallb ?f ?x] => destruct (forallb f x) eqn:Hall end;
        [|done].
      intros _. apply Forall_forall. intros r0 Hr0. rewrite forallb_forall in Hall.
      apply Nat.eqb_eq, Hall. by apply list_elem_of_In. }
    apply (insert_values_ok _ _ _ _ _ _ Sc HSc) in Hdrive as (_ & _ & Hw & _).
    destruct (append_loop B (InsertValues tb l) table all_data (start_pos + B)
                (mkState d (frame s))) as [[o2 s2] t2] eqn:Hrest.
    injection Hrun as -> <- <-.
    eapply IH in Hrest; [|lia|by cbn [conn]; rewrite Hw; apply lookup_insert_eq].
    rewrite Hdrop. by apply Forall_app.
Qed.

(** What a returning merge tells about its input. *)
Lemma merge_requirements table join_keys commit (s s' : state db) t T0 :
  working (conn s) !! ident table = Some T0 ->
  update_join table join_keys commit s = (Return tt, s', t) ->
  exists staged,
    staged_records (frame s) (t_columns T0) = Some staged /\
    staged <> [] /\
    Forall (fun r => length r = length (t_columns T0)) staged /\
    key_ok (t_columns T0) (map ident join_keys) staged = true /\
    join_keys <> [] /\
    Forall (fun k => ident k ∈ t_columns T0) join_keys /\
    (forall c, c ∈ t_columns T0 <-> c ∈ map upper (columns (frame s))) /\
    frame s' = mkDataFrame (map upper (columns (frame s))) (values (frame s)).
Proof.
  intros HT0 Hrun. pose proof (temp_table_distinct table) as Hne.
  set (temp := temp_table table) in *.
  rewrite update_join_run in Hrun. unfold and_then, merge_head in Hrun.
  fold temp in Hrun.
  destruct (drive (conn s) _) as [d1 [e|r1]] eqn:H1; [done|].
  apply create_table_as_ok in H1 as (T0' & HT0' & Hfree & Hw1 & Hc1).
  rewrite HT0 in HT0'. injection HT0' as <-.
  destruct (drive d1 _) as [d2 [e|r2]] eqn:H2; [done|].
  eapply add_primary_key_ok in H2 as (Hjn & Hcols & Hw2 & Hc2);
    [|by rewrite Hw1; apply lookup_insert_eq].
  cbn [t_columns t_rows] in *. cbn beta iota zeta in Hrun.
  destruct (append_df temp false _) as [[[[]|e|n] s3] t3] eqn:H3; [|done|done].
  assert (Hwidth : exists staged first,
            staged_records (frame s) (t_columns T0) = Some staged /\
            staged !! 0 = Some first /\
            Forall (fun r => length r = length (t_columns T0)) staged).
  { revert H3. unfold append_df, bind. rewrite format_data_run. cbn [conn frame].
    destruct (drive d2 (Execute (SelectFirstRow temp))) as [d [e|r]] eqn:Hsel; [done|].
    apply select_first_row_ok in Hsel as (Sc' & HSc' & -> & Hdesc).
    rewrite Hw2, lookup_insert_eq in HSc'. injection HSc' as <-.
    cbn [t_columns] in Hdesc. rewrite Hdesc. cbn zeta. cbn [columns].
    destruct (oracle_order_loop _ _ _ _) as [e|order] eqn:Horder; [done|].
    apply oracle_order_loop_inv in Horder as [-> _]. cbn [app].
    unfold staged_records.
    destruct (reindex _ _) as [e|df1]; [done|].
    destruct (to_records _) as [e|all_data]; [done|]. cbn [fst].
    unfold append_data, append_data_batched, bind, print, lift.
    destruct (all_data !! 0) as [first|] eqn:Hfirst; [|done]. unfold ret.
    destruct (append_loop _ _ _ _ _ _) as [[o3 s3'] t3'] eqn:Hloop.
    intros [= -> <- <-].
    pose proof Hloop as Hloop'.
    eapply (append_loop_widths _ _ _ _ _ BATCH_SIZE_pos (length all_data)) in Hloop;
      [|lia|by cbn [conn]; rewrite Hw2; apply lookup_insert_eq].
    eapply (append_loop_model _ _ _ _ _ BATCH_SIZE_pos (length all_data)) in Hloop'
      as (_ & _ & _ & Hk); [|lia|by cbn [conn]; rewrite Hw2; apply lookup_insert_eq].
    rewrite drop_0 in *. cbn [t_columns] in Hk.
    destruct Hk as [_ Hlen]; [by intros Hnil; rewrite Hnil in Hfirst|].
    exists all_data, first. split; [done|]. split; [done|].
    eapply Forall_impl; [exact Hloop|]. intros r0 Hr0. cbn beta in Hr0. congruence. }
  destruct Hwidth as (staged & first & Hstaged & Hfirst & Hwidth).
  eapply append_df_model in H3 as (staged' & Hstaged' & Hall & Hw3 & Hc3 & Hf3 & Hkey);
    [|by cbn [conn]; rewrite Hw2; apply lookup_insert_eq].
  cbn [conn frame t_columns t_rows t_key with_rows app] in *.
  rewrite Hstaged in Hstaged'. injection Hstaged' as <-.
  pose proof (merge_tail_frame table join_keys commit s3) as Htail.
  destruct (merge_tail table join_keys commit s3) as [[o4 s4] t4] eqn:Htl.
  cbn [fst snd] in Htail. cbn beta iota zeta in Hrun. injection Hrun as -> -> _.
  unfold merge_tail in Htl. rewrite Hf3 in Htl. cbn [frame columns] in Htl.
  unfold statement_update, statement_delete_temp, statement_append_from_temp in Htl.
  fold temp in Htl.
  destruct (drive (conn s3) _) as [d4 [e|r4]] eqn:H4; [done|]. clear Htl.
  apply update_join_ok in H4 as (Tg & Sc & HTg & HSc & Hboth & _).
  rewrite Hw3, Hw2, Hw1 in HTg. rewrite !insert_insert_eq in HTg.
  rewrite lookup_insert_ne, HT0 in HTg by done. injection HTg as <-.
  exists staged. repeat split; try done.
  - intros Hnil. by rewrite Hnil in Hfirst.
  - apply Hall.
  - intros Hc. apply Forall_app in Hboth as [Hsel _]. rewrite Forall_forall in Hsel.
    destruct (Hsel c Hc) as [Hin _].
    apply list_elem_of_fmap in Hc as (c0 & -> & _).
    unfold ident in Hin. by rewrite upper_idemp in Hin.
  - by rewrite Htail, Hf3.
Qed.

(** X18.  On the relational model, a merge completes only if the join keys
    are a non-empty list of columns of the target, the frame has at least
    one row, and the staged records carry no null in a join key and
    pairwise distinct join-key values. *)
Theorem update_join_needs_keys table join_keys commit (s s' : state db) t T0 :
  working (conn s) !! ident table = Some T0 ->
  update_join table join_keys commit s = (Return tt, s', t) ->
  join_keys <> [] /\
  Forall (fun k => ident k ∈ t_columns T0) join_keys /\
  exists staged,
    staged_records (frame s) (t_columns T0) = Some staged /\
    staged <> [] /\
    NoDup (map (key_of (t_columns T0) (map ident join_keys)) staged) /\
    forall r k, r ∈ staged -> k ∈ join_keys ->
                is_null (col_value (t_columns T0) r k) = false.
Proof.
  intros HT0 Hrun.
  destruct (merge_requirements _ _ _ _ _ _ _ HT0 Hrun)
    as (staged & Hstaged & Hne & _ & Hkey & Hjn & Hcols & _).
  split; [done|]. split; [done|]. exists staged. split; [done|]. split; [done|].
  unfold key_ok in Hkey. destruct (map ident join_keys) as [|k0 ks] eqn:Hks;
    [by destruct join_keys|].
  apply andb_true_iff in Hkey as [Hnn Hnd]. apply bool_decide_eq_true in Hnd.
  split; [done|]. intros r k Hr Hk.
  rewrite forallb_forall in Hnn. apply list_elem_of_In, Hnn in Hr.
  rewrite forallb_forall in Hr.
  apply negb_true_iff, Hr, list_elem_of_In. unfold key_of. rewrite <- Hks.
  apply list_elem_of_fmap. exists (ident k). split; [by rewrite col_value_ident|].
  apply list_elem_of_fmap. by exists k.
Qed.


End OracleRequirements.

Module OracleAgain.
Import Oracle OracleMerge OracleAppend OracleFootprint OracleRequirements.

Lemma find_ext_in {A} (f g : A -> bool) l :
  (forall x, x ∈ l -> f x = g x) -> find f l = find g l.
Proof.
  induction l as [|x l IH]; intros Hfg; [done|]. cbn.
  rewrite (Hfg x) by (by left). destruct (g x); [done|].
  apply IH. intros y Hy. apply Hfg. by right.
Qed.

Lemma fmap_fixed {A} (f : A -> A) l : (forall x, x ∈ l -> f x = x) -> map f l = l.
Proof.
  induction l as [|x l IH]; intros Hf; [done|]. cbn.
  rewrite (Hf x) by (by left). f_equal. apply IH. intros y Hy. apply Hf. by right.
Qed.

Lemma filter_none {A} (P : A -> Prop) `{forall x, Decision (P x)} l :
  (forall x, x ∈ l -> ~ P x) -> filter P l = [].
Proof.
  induction l as [|x l IH]; intros HP; [done|].
  rewrite filter_cons_False by (apply HP; by left).
  apply IH. intros y Hy. apply HP. by right.
Qed.

(** A row of as many cells as there are columns is its own cells read
    column by column. *)
Lemma field_own_columns cols (row : record) :
  NoDup cols -> length row = length cols -> map (field cols row) cols = row.
Proof.
  intros Hnd Hlen. apply list_eq. intros i. rewrite list_lookup_fmap.
  destruct (cols !! i) as [c|] eqn:Hi; simpl.
  - unfold field. rewrite (index_of_lookup cols i c) by done.
    destruct (row !! i) as [v|] eqn:Hv; [done|].
    apply lookup_ge_None in Hv. apply lookup_lt_Some in Hi. lia.
  - apply lookup_ge_None in Hi. symmetry. apply lookup_ge_None. lia.
Qed.

Lemma overwrite_self cols st (s : record) :
  NoDup cols -> length s = length cols -> overwrite cols cols st s s = s.
Proof.
  intros Hnd Hlen. unfold overwrite.
  transitivity (map (field cols s) cols); [|by apply field_own_columns].
  apply list_fmap_ext. intros _ c _. by destruct (py_in _ _).
Qed.

Lemma overwrite_again ct cs st t s :
  overwrite ct cs st (overwrite ct cs st t s) s = overwrite ct cs st t s.
Proof.
  unfold overwrite at 1 3. apply list_fmap_ext. intros i c Hc.
  apply list_elem_of_lookup_2 in Hc.
  rewrite field_overwrite by done. by destruct (py_in _ _).
Qed.

Lemma update_row_again ct cs jn st scratch t :
  Forall (fun k => ident k ∈ ct) jn ->
  update_row ct cs jn st scratch (update_row ct cs jn st scratch t) =
  update_row ct cs jn st scratch t.
Proof.
  intros Hcols. unfold update_row at 1.
  rewrite (find_ext_in _ (matches ct cs jn t))
    by (intros s _; by apply matches_update_row).
  unfold update_row. destruct (find _ scratch) as [s|] eqn:Hfind; [|done].
  apply overwrite_again.
Qed.

(** A row whose join-key values are not null joins itself. *)
Lemma matches_self cols jn (s : record) :
  (forall k, k ∈ jn -> is_null (col_value cols s k) = false) ->
  matches cols cols jn s s = true.
Proof.
  intros Hnn. apply matches_spec. intros k Hk. unfold sql_eq.
  rewrite (Hnn k Hk). cbn. by apply bool_decide_eq_true.
Qed.

Lemma key_ok_not_null cols jn rows r k :
  key_ok cols (map ident jn) rows = true -> r ∈ rows -> k ∈ jn ->
  is_null (col_value cols r k) = false.
Proof.
  intros Hkey Hr Hk. unfold key_ok in Hkey.
  destruct (map ident jn) as [|k0 ks] eqn:Hks; [by destruct jn; [apply elem_of_nil in Hk|]|].
  apply andb_true_iff in Hkey as [Hnn _].
  rewrite forallb_forall in Hnn. apply list_elem_of_In, Hnn in Hr.
  rewrite forallb_forall in Hr.
  apply negb_true_iff, Hr, list_elem_of_In. unfold key_of. rewrite <- Hks.
  apply list_elem_of_fmap. exists (ident k). split; [by rewrite col_value_ident|].
  apply list_elem_of_fmap. by exists k.
Qed.

(** Merging the same records a second time changes nothing. *)
Lemma merged_rows_again T0 join_keys df_columns staged :
  NoDup (t_columns T0) ->
  join_keys <> [] ->
  Forall (fun k => ident k ∈ t_columns T0) join_keys ->
  key_ok (t_columns T0) (map ident join_keys) staged = true ->
  Forall (fun r => length r = length (t_columns T0)) staged ->
  merged_rows (with_rows T0 (merged_rows T0 join_keys df_columns staged))
    join_keys df_columns staged =
  merged_rows T0 join_keys df_columns staged.
Proof.
  intros Hnd Hjn Hcols Hkey Hwidth. unfold merged_rows at 1.
  cbn [with_rows t_columns t_rows]. unfold merged_rows.
  set (cols := t_columns T0) in *.
  set (st := filter (fun col => col ∉ join_keys) df_columns).
  set (U := map (update_row cols cols join_keys st staged) (t_rows T0)).
  set (N := filter (fun s => matched cols cols join_keys (t_rows T0) s = false) staged).
  assert (Hself : forall s, s ∈ staged -> matches cols cols join_keys s s = true).
  { intros s Hs. apply matches_self. intros k Hk. by eapply key_ok_not_null. }
  assert (Hfind : forall t s, s ∈ staged -> matches cols cols join_keys t s = true ->
                    find (matches cols cols join_keys t) staged = Some s).
  { intros t s Hs Hm. apply (find_matches _ _ _ (map ident join_keys)); try done.
    - by destruct join_keys.
    - by apply Forall_forall. }
  rewrite map_app.
  assert (HU : map (update_row cols cols join_keys st staged) U = U).
  { unfold U. rewrite <- list_fmap_compose. apply list_fmap_ext. intros _ t _. cbn.
    by apply update_row_again. }
  assert (HN : map (update_row cols cols join_keys st staged) N = N).
  { apply fmap_fixed. intros s [_ Hs]%list_elem_of_filter.
    unfold update_row. rewrite (Hfind s s Hs (Hself s Hs)).
    apply overwrite_self; [done|]. rewrite Forall_forall in Hwidth. by apply Hwidth. }
  rewrite HU, HN.
  rewrite (filter_none _ staged); [by rewrite app_nil_r|].
  intros s Hs Hun. unfold matched in Hun. rewrite existsb_app in Hun.
  apply orb_false_iff in Hun as [HunU HunN].
  change (existsb _ U) with (matched cols cols join_keys U s) in HunU.
  unfold U in HunU. rewrite matched_update_rows in HunU by done.
  assert (HsN : s ∈ N) by (by apply list_elem_of_filter).
  assert (Hex : existsb (fun t => matches cols cols join_keys t s) N = true).
  { apply existsb_exists. exists s. split; [by apply list_elem_of_In|by apply Hself]. }
  congruence.
Qed.

(** X20.  On the relational model, merging the same frame a second time
    changes nothing: when both merges complete with the commit flag set,
    on a target whose column names are distinct, the database after the
    second is the database after the first. *)
Theorem update_join_twice table join_keys (s s1 s2 : state db) t1 t2 T0 :
  working (conn s) !! ident table = Some T0 ->
  NoDup (t_columns T0) ->
  update_join table join_keys true s = (Return tt, s1, t1) ->
  update_join table join_keys true s1 = (Return tt, s2, t2) ->
  working (conn s2) = working (conn s1) /\ committed (conn s2) = committed (conn s1).
Proof.
  intros HT0 Hnd Hrun1 Hrun2. pose proof (temp_table_distinct table) as Hne.
  destruct (merge_requirements _ _ _ _ _ _ _ HT0 Hrun1)
    as (staged & Hstaged & _ & Hwidth & Hkey & Hjn & Hcols & _ & Hframe).
  destruct (merge_statements_model _ _ _ _ _ _ _ HT0 Hrun1)
    as (staged' & w1 & Hstaged' & _ & Hw1 & _ & Hfinal1 & Hcom1).
  rewrite Hstaged in Hstaged'. injection Hstaged' as <-.
  set (cols := map upper (columns (frame s))) in *.
  set (T1 := with_rows T0 (merged_rows T0 join_keys cols staged)) in *.
  assert (HT1 : working (conn s1) !! ident table = Some T1)
    by (by rewrite Hfinal1, lookup_delete_ne).
  destruct (merge_statements_model _ _ _ _ _ _ _ HT1 Hrun2)
    as (staged2 & w2 & Hstaged2 & _ & Hw2 & _ & Hfinal2 & Hcom2).
  destruct (merge_footprint _ _ _ _ _ _ _ HT1 Hrun2) as [_ Hother].
  assert (Hcols2 : map upper (columns (frame s1)) = cols).
  { rewrite Hframe. cbn [columns]. unfold cols. rewrite <- list_fmap_compose.
    apply list_fmap_ext. intros _ c _. apply upper_idemp. }
  assert (Hsame : staged2 = staged).
  { revert Hstaged2. unfold staged_records. rewrite Hcols2, Hframe. cbn [values t_columns T1 with_rows].
    fold cols. unfold staged_records in Hstaged. fold cols in Hstaged.
    rewrite Hstaged. by intros [= <-]. }
  subst staged2. rewrite Hcols2 in Hw2. unfold T1 in Hw2.
  rewrite merged_rows_again in Hw2 by done.
  assert (Hw : working (conn s2) = working (conn s1)).
  { apply map_eq. intros name. destruct (decide (name = ident table)) as [->|Hname].
    - rewrite HT1, Hfinal2, lookup_delete_ne, Hw2 by done. done.
    - by apply Hother. }
  split; [done|]. by rewrite Hcom2, Hcom1.
Qed.

End OracleAgain.

Section Exits.
Context {D : Type} `{Driver D}.

Lemma no_calls_no_failed_insert t : calls t = [] -> ~ Exists failed_insert t.
Proof.
  intros Hc Hex. apply Exists_exists in Hex as (ev & Hin & Hev).
  apply no_calls_succeeded in Hc. rewrite Forall_forall in Hc. apply Hc in Hin.
  by destruct ev as [[] [|]|].
Qed.

Lemma succeeded_no_failed_insert t : Forall succeeded t -> ~ Exists failed_insert t.
Proof.
  intros Hok Hex. apply Exists_exists in Hex as (ev & Hin & Hev).
  rewrite Forall_forall in Hok. apply Hok in Hin. by destruct ev as [[] [|]|].
Qed.

Lemma exiting_quiet {A} (m : M D A) :
  (forall s, calls (m s).2 = [] /\ forall n, (m s).1.1 <> Exit n) -> exiting m.
Proof.
  intros Hm s. destruct (Hm s) as [Hc Hne]. split.
  - intros n Hn. by destruct (Hne n).
  - split; [intros [n Hn]; by destruct (Hne n)|].
    intros Hex. by apply no_calls_no_failed_insert in Hex.
Qed.

Lemma exiting_execute statement : exiting (db_call (Execute statement)).
Proof.
  intros s. unfold db_call. destruct (drive _ _) as [d [e|r]]; (split; [done|]); cbn;
    (split; [by intros [n Hn]|]); intros Hex; apply Exists_cons in Hex as [Hex|Hex];
    try done; by apply Exists_nil in Hex.
Qed.

Lemma exiting_decision (commit : bool) :
  exiting (if commit then db_call Commit else db_call Rollback).
Proof.
  intros s. destruct commit; unfold db_call; destruct (drive _ _) as [d [e|r]];
    (split; [done|]); cbn; (split; [by intros [n Hn]|]); intros Hex;
    apply Exists_cons in Hex as [Hex|Hex]; try done; by apply Exists_nil in Hex.
Qed.

Lemma exiting_bind {A B} (m : M D A) (f : A -> M D B) :
  orderly m -> exiting m -> (forall a, exiting (f a)) -> exiting (bind m f).
Proof.
  intros Ho Hm Hf s. unfold bind. destruct (Ho s) as [_ [Hret _]]. specialize (Hm s).
  destruct (m s) as [[[a|e|n] s1] t1]; cbn [fst snd] in *.
  2:{ destruct Hm as [_ Hm]. split; [done|]. split; [by intros [n Hn]|].
      intros Hex. by apply Hm in Hex as [n Hn]. }
  2:{ destruct Hm as [Hone Hm]. split; [intros n' [= <-]; by apply Hone|].
      split; [intros _; apply Hm; by exists n|intros _; by exists n]. }
  specialize (Hf a s1). destruct (f a s1) as [[o2 s2] t2].
  destruct Hf as [Hone Hiff]. cbn [fst snd] in *. split; cbn [fst snd]; [done|].
  rewrite Exists_app, Hiff. split; [by right|]. intros [Hex|Hex]; [|done].
  by apply succeeded_no_failed_insert in Hex; [|apply (Hret a)].
Qed.

Lemma exiting_append_batch stmt table start_pos data :
  exiting (append_batch stmt table start_pos data).
Proof.
  intros s. rewrite append_batch_run. destruct (drive _ _) as [d [e|r]]; cbn [fst snd].
  - split; [by intros n [= <-]|]. split; [intros _|by exists 1%Z].
    apply Exists_cons. right. apply Exists_cons. by left.
  - split; [done|]. split; [by intros [n Hn]|]. intros Hex.
    by apply succeeded_no_failed_insert in Hex; [|repeat constructor].
Qed.

Lemma exiting_append_loop B stmt table all_data :
  forall n start_pos, length all_data - start_pos <= n ->
    exiting (append_loop B stmt table all_data start_pos).
Proof.
  induction n as [|n IH]; intros start_pos Hn; rewrite append_loop_step;
    destruct (slice all_data start_pos (start_pos + B)) as [|r batch] eqn:Hslice;
    try (by apply exiting_quiet).
  - apply (f_equal length) in Hslice. unfold slice in Hslice.
    rewrite length_take, length_drop in Hslice. simpl in Hslice. lia.
  - assert (HB : 0 < B /\ start_pos < length all_data).
    { apply (f_equal length) in Hslice. unfold slice in Hslice.
      rewrite length_take, length_drop in Hslice. simpl in Hslice. lia. }
    apply exiting_bind; [apply orderly_append_batch|apply exiting_append_batch|].
    intros _. apply IH. lia.
Qed.

Lemma exiting_format_data table flag : exiting (format_data table flag).
Proof.
  intros s. rewrite format_data_run.
  destruct (drive _ _) as [d [e|r]].
  - split; [done|]. split; [by intros [n Hn]|]. intros Hex.
    apply Exists_cons in Hex as [Hex|Hex]; [done|by apply Exists_nil in Hex].
  - cbn zeta.
    assert (Hno : ~ Exists failed_insert [Call (Execute (SelectFirstRow table)) (inr r)]).
    { intros Hex. apply Exists_cons in Hex as [Hex|Hex]; [done|by apply Exists_nil in Hex]. }
    destruct (oracle_order_loop _ _ _ _);
      [|destruct (reindex _ _); [|destruct (to_records _)]];
      (split; [done|]); (split; [by intros [n Hn]|done]).
Qed.

Lemma exiting_truncate_data table : exiting (truncate_data table).
Proof.
  unfold truncate_data.
  apply exiting_bind; [apply orderly_db_call|apply exiting_execute|].
  intros r. by apply exiting_quiet.
Qed.

Lemma exiting_append_data_batched B all_data table truncate :
  exiting (append_data_batched B all_data table truncate).
Proof.
  unfold append_data_batched.
  apply exiting_bind; [apply orderly_print|by apply exiting_quiet|intros _].
  apply exiting_bind; [apply orderly_lift| |intros first].
  { apply exiting_quiet. intros s. by destruct (all_data !! 0). }
  apply exiting_bind.
  - destruct truncate; [apply orderly_truncate_data|apply orderly_ret].
  - destruct truncate; [apply exiting_truncate_data|by apply exiting_quiet].
  - intros _. by apply (exiting_append_loop _ _ _ _ (length all_data)); lia.
Qed.

Lemma exiting_append_df table truncate : exiting (append_df table truncate).
Proof.
  unfold append_df.
  apply exiting_bind; [apply orderly_format_data|apply exiting_format_data|intros a].
  apply exiting_append_data_batched.
Qed.

Lemma exiting_commit_transactions commit : exiting (commit_transactions commit).
Proof.
  unfold commit_transactions. apply exiting_bind.
  - destruct commit; apply orderly_db_call.
  - apply exiting_decision.
  - intros _. by apply exiting_quiet.
Qed.

Lemma exiting_update_join table join_keys commit :
  exiting (update_join table join_keys commit).
Proof.
  unfold update_join.
  repeat first
    [ apply exiting_execute | apply exiting_append_df | apply exiting_commit_transactions
    | apply exiting_quiet; done
    | apply orderly_print | apply orderly_db_call | apply orderly_get_columns
    | apply orderly_append_df | apply orderly_commit_transactions
    | apply exiting_bind; [| |intros ?] ].
Qed.

(** X5.  The process is left only by [append_data], and through it by
    [append_df] and [update_join]: a run of these ends with [sys.exit]
    exactly when one of its batched executions, which are all inserts,
    raised, and then the status is 1.  [delete_data], [format_data],
    [truncate_data] and [commit_transactions] never leave the process. *)
Theorem exit_only_on_failed_insert :
  (forall table join_keys commit (s : state D),
     exits_on_failed_insert (update_join table join_keys commit s)) /\
  (forall table truncate (s : state D),
     exits_on_failed_insert (append_df table truncate s)) /\
  (forall all_data table truncate (s : state D),
     exits_on_failed_insert (append_data all_data table truncate s)) /\
  (forall np_array table column (s : state D) n,
     (delete_data np_array table column s).1.1 <> Exit n) /\
  (forall table return_col_names (s : state D) n,
     (format_data table return_col_names s).1.1 <> Exit n) /\
  (forall table (s : state D) n, (truncate_data table s).1.1 <> Exit n) /\
  (forall commit (s : state D) n, (commit_transactions commit s).1.1 <> Exit n).
Proof.
  split; [intros; apply exiting_update_join|].
  split; [intros; apply exiting_append_df|].
  split; [intros; apply exiting_append_data_batched|].
  split; [|split; [|split]].
  - intros np_array table column s n. unfold delete_data, try_except, bind, db_call, print, raise.
    destruct (negb _); [|done]. by destruct (drive _ _) as [d [e|r]].
  - intros table flag s n. rewrite format_data_run.
    destruct (drive _ _) as [d [e|r]]; [done|]. cbn zeta.
    destruct (oracle_order_loop _ _ _ _); [done|]. destruct (reindex _ _); [done|].
    by destruct (to_records _).
  - intros table s n. rewrite truncate_data_run. by destruct (drive _ _) as [d [e|r]].
  - intros commit s n. unfold commit_transactions, bind, db_call, print.
    by destruct commit; destruct (drive _ _) as [d [e|r]].
Qed.




End Exits.

(** ** The properties on the examples *)

Lemma append_data_truncate_raises_witness :
  append_data Examples.five_rows "ORDERS" true (mkState Examples.shop Examples.people) =
  (Raise (DatabaseError "table or view does not exist"),
   mkState Examples.shop Examples.people,
   [Print [Txt ("Appending to " +:+ dq +:+ "ORDERS" +:+ dq)];
    Call (Execute (DeleteAll "ORDERS")) (inl (DatabaseError "table or view does not exist"))]).
Proof.
  apply (append_data_truncate_raises [Int 1] _ "ORDERS"
           (mkState Examples.shop Examples.people)).
  reflexivity.
Defined.

Lemma format_data_normalises_witness :
  Forall (Forall normalised) [[Int 5; PyNone; PyNone]].
Proof.
  apply (format_data_normalises "ITEMS" false (mkState Examples.shop Samples.gaps) _ None).
  vm_compute. reflexivity.
Defined.


Lemma format_data_again_witness :
  let first := format_data "ITEMS" true (mkState Examples.shop Examples.changes) in
  let second := format_data "ITEMS" true first.1.2 in
  second.1.1 = first.1.1 /\ frame second.1.2 = frame first.1.2.
Proof.
  apply (format_data_again "ITEMS" true (mkState Examples.shop Examples.changes)
           Examples.shop Samples.described Examples.shop Samples.described);
    reflexivity.
Defined.

Lemma append_df_sends_reconciled_witness :
  let run := append_df "ITEMS" false (mkState Examples.shop Examples.changes) in
  exists r t', run.2 = Call (Execute (SelectFirstRow "ITEMS")) (inr r) :: t' /\
    concat (insert_batches run.2) = reconciled Examples.changes (description r).
Proof.
  apply (append_df_sends_reconciled "ITEMS" false (mkState Examples.shop Examples.changes)
           (append_df "ITEMS" false (mkState Examples.shop Examples.changes)).1.2).
  - repeat constructor.
  - apply (bool_decide_unpack _). vm_compute. exact I.
  - vm_compute. reflexivity.
Defined.

Lemma update_join_no_rows_witness :
  let s := mkState Examples.shop Samples.no_rows in
  (exists e, (update_join "ITEMS" ["ID"] true s).1.1 = Raise e) /\
  calls (update_join "ITEMS" ["ID"] true s).2 `prefix_of`
    [Execute (statement_create "ITEMS"); Execute (statement_add_pk "ITEMS" ["ID"]);
     Execute (SelectFirstRow (temp_table "ITEMS"))].
Proof.
  apply (update_join_no_rows "ITEMS" ["ID"] true (mkState Examples.shop Samples.no_rows)).
  reflexivity.
Defined.


Lemma append_data_rolled_back_witness :
  let s := mkState Examples.shop Examples.people in
  let a := append_data Samples.new_item "ITEMS" true s in
  let c := commit_transactions false a.1.2 in
  c.1.1 = Return tt /\
  Oracle.working (conn c.1.2) = Oracle.committed (conn s) /\
  Oracle.committed (conn c.1.2) = Oracle.committed (conn s).
Proof.
  apply (append_data_rolled_back Samples.new_item "ITEMS" true
           (mkState Examples.shop Examples.people)
           (append_data Samples.new_item "ITEMS" true
              (mkState Examples.shop Examples.people)).1.2
           _
           (append_data Samples.new_item "ITEMS" true
              (mkState Examples.shop Examples.people)).2
           _
           (commit_transactions false
              (append_data Samples.new_item "ITEMS" true
                 (mkState Examples.shop Examples.people)).1.2).2).
  - vm_compute. reflexivity.
  - vm_compute. reflexivity.
Defined.

Lemma update_join_footprint_witness :
  let s := mkState Examples.shop Examples.changes in
  let s' := (update_join "ITEMS" ["ID"] true s).1.2 in
  Oracle.working (conn s') !! Oracle.ident (temp_table "ITEMS") = None /\
  forall name, name <> Oracle.ident "ITEMS" ->
    Oracle.working (conn s') !! name = Oracle.working (conn s) !! name.
Proof.
  apply (OracleFootprint.update_join_footprint "ITEMS" ["ID"] true
           (mkState Examples.shop Examples.changes) _
           (update_join "ITEMS" ["ID"] true (mkState Examples.shop Examples.changes)).2
           Examples.items).
  - vm_compute. reflexivity.
  - vm_compute. reflexivity.
Defined.

Lemma update_join_rollback_commits_witness :
  let s := mkState Examples.shop Examples.changes in
  let s' := (update_join "ITEMS" ["ID"] false s).1.2 in
  Oracle.working (conn s') = Oracle.working (conn s) /\
  Oracle.committed (conn s') = Oracle.working (conn s).
Proof.
  apply (OracleFootprint.update_join_rollback_commits "ITEMS" ["ID"]
           (mkState Examples.shop Examples.changes) _
           (update_join "ITEMS" ["ID"] false (mkState Examples.shop Examples.changes)).2
           Examples.items).
  - vm_compute. reflexivity.
  - vm_compute. reflexivity.
Defined.

Lemma update_join_leaves_scratch_witness :
  table_exists (conn Samples.stale) (temp_table "ITEMS").
Proof.
  apply (OracleFootprint.update_join_leaves_scratch "ITEMS" ["ID"] true
           (mkState Examples.shop Examples.people)
           (Oracle.run Examples.shop (Execute (statement_create "ITEMS"))).1
           (mkResponse 0 [])).
  - vm_compute. reflexivity.
  - vm_compute. discriminate.
Defined.


Lemma update_join_needs_keys_witness :
  ["ID"] <> [] /\
  Forall (fun k => Oracle.ident k ∈ Oracle.t_columns Examples.items) ["ID"] /\
  exists staged,
    staged_records Examples.changes (Oracle.t_columns Examples.items) = Some staged /\
    staged <> [] /\
    NoDup (map (Oracle.key_of (Oracle.t_columns Examples.items) (map Oracle.ident ["ID"]))
               staged) /\
    forall r k, r ∈ staged -> k ∈ ["ID"] ->
                Oracle.is_null (Oracle.col_value (Oracle.t_columns Examples.items) r k) = false.
Proof.
  apply (OracleRequirements.update_join_needs_keys "ITEMS" ["ID"] true
           (mkState Examples.shop Examples.changes)
           (update_join "ITEMS" ["ID"] true (mkState Examples.shop Examples.changes)).1.2
           (update_join "ITEMS" ["ID"] true (mkState Examples.shop Examples.changes)).2
           Examples.items).
  - vm_compute. reflexivity.
  - vm_compute. reflexivity.
Defined.


Lemma update_join_twice_witness :
  let s1 := (update_join "ITEMS" ["ID"] true (mkState Examples.shop Examples.changes)).1.2 in
  let s2 := (update_join "ITEMS" ["ID"] true s1).1.2 in
  Oracle.working (conn s2) = Oracle.working (conn s1) /\
  Oracle.committed (conn s2) = Oracle.committed (conn s1).
Proof.
  apply (OracleAgain.update_join_twice "ITEMS" ["ID"]
           (mkState Examples.shop Examples.changes) _ _
           (update_join "ITEMS" ["ID"] true (mkState Examples.shop Examples.changes)).2
           (update_join "ITEMS" ["ID"] true
              (update_join "ITEMS" ["ID"] true
                 (mkState Examples.shop Examples.changes)).1.2).2
           Examples.items).
  - vm_compute. reflexivity.
  - apply (bool_decide_unpack _). vm_compute. exact I.
  - vm_compute. reflexivity.
  - vm_compute. reflexivity.
Defined.
